(** * dd-sdk-mini-program: the callback-to-promise adapter layer

    A shallow embedding of [src/index.ts] (the DingTalk mini-program SDK
    wrapper) and the properties of its adapters.

    The repository keeps five snapshots of the one source file:
    [src/unnamed/part_000], [src/unnamed/part_001], [src/src/index.ts]
    and the two documents of [src/unnamed/part_002], each with the
    adapters of the one before and more.  The top level of this
    development embeds the most complete one (the first document of
    [src/unnamed/part_002], lines 1-1015); the module [Earlier] embeds
    the adapters of the other snapshots whose bodies differ from it.
    [httpRequest] and [getHeaders] are the same in all five.

    Modelling choices.
    - JavaScript values are primitives or references into a heap of
      objects and arrays, so that aliasing and in-place mutation are
      visible.  Numbers are the integer-valued ones: [VNum n] is the
      double nearest to the integer [n].  Strings are byte strings.
      There are no function values inside data.
    - An object is its list of own enumerable properties in JavaScript's
      enumeration order: array-index keys first, ascending, then the
      other keys in creation order.  Every object of a heap has the
      prototype that literals and parsed JSON give it,
      [Object.prototype] (or [Array.prototype]): prototype links are
      not part of the heap.
    - Code that reads or writes the heap, or may throw, lives in a small
      state-and-exception monad [M].
    - [new Promise(executor)] runs its executor at once, so an adapter
      is modelled by the host call it issues: the entry point and the
      configuration object, callbacks included.  The host is the
      environment: it later invokes one of the callbacks, and the
      promise settles on the first [resolve]/[reject]. *)

From Stdlib Require Import ZArith String Ascii DecimalString.
From stdpp Require Import base list finite.

Local Open Scope string_scope.

(** ** Values and the heap *)

Abbreviation loc := nat.

Inductive value :=
| VUndefined
| VNull
| VBool (b : bool)
| VNum (n : Z)
| VStr (s : string)
| VRef (l : loc).

Abbreviation props := (list (string * value)).

(** An array also carries its named (non-index) properties. *)
Inductive cell :=
| Obj (ps : props)
| Arr (elems : list value) (ps : props).

Abbreviation heap := (list cell).

(** JavaScript truthiness ([!x] is [negb (truthy x)]). *)
Definition truthy (v : value) : bool :=
  match v with
  | VUndefined | VNull => false
  | VBool b => b
  | VNum n => negb (n =? 0)%Z
  | VStr s => negb (s =? EmptyString)
  | VRef _ => true
  end.

(** ** Property lists in JavaScript key order *)

Definition is_digit (c : ascii) : bool :=
  let n := nat_of_ascii c in (48 <=? n)%nat && (n <=? 57)%nat.

Fixpoint digits_value (s : string) (acc : N) : option N :=
  match s with
  | EmptyString => Some acc
  | String c rest =>
      if is_digit c
      then digits_value rest (acc * 10 + N.of_nat (nat_of_ascii c - 48))%N
      else None
  end.

(** [array_index k] is [Some n] when [k] is the canonical decimal form
    of an array index [n] (an integer below 2^32 - 1). *)
Definition array_index (k : string) : option N :=
  match k with
  | EmptyString => None
  | String c rest =>
      if (c =? "0")%char && negb (rest =? EmptyString) then None
      else match digits_value k 0 with
           | Some n => if (n <? 4294967295)%N then Some n else None
           | None => None
           end
  end.

Section PropertyLists.
Context {A : Type}.
Implicit Types (k : string) (x : A) (o : list (string * A)).

Fixpoint obj_get k o : option A :=
  match o with
  | [] => None
  | (k', x) :: rest => if k =? k' then Some x else obj_get k rest
  end.

Definition has_key k o : bool :=
  match obj_get k o with Some _ => true | None => false end.

(** Overwriting keeps the property where it is. *)
Fixpoint obj_replace k x o : list (string * A) :=
  match o with
  | [] => []
  | (k', x') :: rest =>
      if k =? k' then (k, x) :: rest else (k', x') :: obj_replace k x rest
  end.

(** A new array-index key goes before the first key that is not an
    index or is a larger index. *)
Fixpoint obj_insert_index (n : N) k x o : list (string * A) :=
  match o with
  | [] => [(k, x)]
  | (k', x') :: rest =>
      match array_index k' with
      | Some n' =>
          if (n <? n')%N then (k, x) :: o
          else (k', x') :: obj_insert_index n k x rest
      | None => (k, x) :: o
      end
  end.

Definition obj_add k x o : list (string * A) :=
  match array_index k with
  | Some n => obj_insert_index n k x o
  | None => (o ++ [(k, x)])%list
  end.

(** [o[k] = x] on an ordinary object. *)
Definition obj_set k x o : list (string * A) :=
  if has_key k o then obj_replace k x o else obj_add k x o.

Fixpoint obj_remove k o : list (string * A) :=
  match o with
  | [] => []
  | (k', x') :: rest =>
      if k =? k' then obj_remove k rest else (k', x') :: obj_remove k rest
  end.

(** Writing the entries [src] into [o], one after the other. *)
Definition obj_assign (src o : list (string * A)) : list (string * A) :=
  fold_left (fun o kx => obj_set kx.1 kx.2 o) src o.

(** An object literal [{k1: x1, k2: x2, ...}]: the properties are
    defined one after the other on an empty object. *)
Definition literal (fields : list (string * A)) : list (string * A) :=
  obj_assign fields [].
End PropertyLists.

(** [o.k] on a property list: a missing property reads as [undefined]. *)
Definition get (k : string) (o : props) : value :=
  default VUndefined (obj_get k o).

(** A destructuring default [x = d]: it applies exactly to [undefined]. *)
Definition dflt (d v : value) : value :=
  match v with VUndefined => d | _ => v end.

(** ** The state-and-exception monad *)

Inductive error := TypeError.

Inductive result (A : Type) :=
| Ok (a : A) (h : heap)
| Throw (e : error) (h : heap).
Arguments Ok {A} a h.
Arguments Throw {A} e h.

Definition M (A : Type) : Type := heap -> result A.

Definition ret {A} (a : A) : M A := fun h => Ok a h.

Definition bind {A B} (m : M A) (f : A -> M B) : M B :=
  fun h => match m h with
           | Ok a h' => f a h'
           | Throw e h' => Throw e h'
           end.

Definition throw {A} (e : error) : M A := fun h => Throw e h.

Declare Scope js_scope.
Delimit Scope js_scope with js.
Notation "x <- c ;; k" := (bind c (fun x => k))
  (at level 100, c at next level, right associativity) : js_scope.
Notation "c ;; k" := (bind c (fun _ => k))
  (at level 100, right associativity) : js_scope.
Local Open Scope js_scope.

(** ** Heap primitives

    The adapters read only literal property names ([headers],
    [Content-Type], [index], [data], [id], [date], [authCode]); none is
    an array index, [length] or an inherited member, so a read is a
    look-up among the own named properties.  The module is strict code:
    reading a property of [undefined] or [null] throws, and so does
    writing one on a primitive, the key [__proto__] apart.

    A write [v[k] = x] is the internal method [[Set]]: it creates or
    overwrites an own property, unless the key is found further up as an
    accessor.  [Object.prototype] has one accessor, [__proto__]: a write
    to that key on an object with no own property of that name goes to
    the setter, which adds no own property (given an object or [null] it
    replaces the prototype of the target, given anything else it does
    nothing), and which returns quietly on a primitive. *)

Definition proto_key : string := "__proto__".

(** [o[k] = x] on the own properties [o] of an object. *)
Definition obj_put (k : string) (x : value) (o : props) : props :=
  if (k =? proto_key) && negb (has_key k o) then o else obj_set k x o.

(** A write of [__proto__] that replaces the prototype of its target:
    the setter acts on an object or [null] and ignores any other
    value.  The heap does not record the new prototype.  The own
    properties after such a write are as the model has them; what the
    model no longer follows is a later write of [__proto__] to the same
    target, which finds a prototype chain that may lack the accessor
    and then creates an own property. *)
Definition replaces_prototype (kv : string * value) : bool :=
  (kv.1 =? proto_key)
  && match kv.2 with VNull | VRef _ => true | _ => false end.

(** No entry replaces the prototype of the object it is written to. *)
Definition prototype_kept (entries : props) : Prop :=
  Forall (fun kv => replaces_prototype kv = false) entries.

(** The entries that become own properties when written, one after the
    other, to an object without an own [__proto__]. *)
Fixpoint settable (entries : props) : props :=
  match entries with
  | [] => []
  | (k, x) :: rest =>
      if k =? proto_key then settable rest else (k, x) :: settable rest
  end.

Definition named_props (c : cell) : props :=
  match c with Obj ps => ps | Arr _ ps => ps end.

Definition with_named_props (c : cell) (ps : props) : cell :=
  match c with Obj _ => Obj ps | Arr elems _ => Arr elems ps end.

(** [v[k]] *)
Definition get_prop (v : value) (k : string) : M value :=
  fun h =>
    match v with
    | VUndefined | VNull => Throw TypeError h
    | VBool _ | VNum _ | VStr _ => Ok VUndefined h
    | VRef l =>
        match h !! l with
        | Some c => Ok (get k (named_props c)) h
        | None => Ok VUndefined h
        end
    end.

(** [v[k] = x] *)
Definition set_prop (v : value) (k : string) (x : value) : M unit :=
  fun h =>
    match v with
    | VUndefined | VNull => Throw TypeError h
    | VBool _ | VNum _ | VStr _ =>
        if k =? proto_key then Ok tt h else Throw TypeError h
    | VRef l =>
        match h !! l with
        | Some c => Ok tt (<[l := with_named_props c (obj_put k x (named_props c))]> h)
        | None => Ok tt h
        end
    end.

(** [{}] : a fresh object at the end of the heap. *)
Definition new_object : M value :=
  fun h => Ok (VRef (length h)) (h ++ [Obj []])%list.

Definition is_array (h : heap) (v : value) : bool :=
  match v with
  | VRef l => match h !! l with Some (Arr _ _) => true | _ => false end
  | _ => false
  end.

Definition Array_isArray (v : value) : M bool :=
  fun h => Ok (is_array h v) h.

(** ** Library functions used by the adapters *)

Fixpoint for_each {A} (l : list A) (f : A -> M unit) : M unit :=
  match l with
  | [] => ret tt
  | x :: rest => f x ;; for_each rest f
  end.

Definition index_key (i : nat) : string :=
  NilZero.string_of_uint (Nat.to_uint i).

Fixpoint indexed_from (i : nat) (l : list value) : props :=
  match l with
  | [] => []
  | x :: rest => (index_key i, x) :: indexed_from (S i) rest
  end.

Definition chars (s : string) : list value :=
  map (fun c => VStr (String c EmptyString)) (list_ascii_of_string s).

(** The own enumerable string-keyed properties of [ToObject(v)] with
    their values, in enumeration order; [undefined], [null], booleans
    and numbers have none. *)
Definition entries_in (h : heap) (v : value) : props :=
  match v with
  | VRef l =>
      match h !! l with
      | Some (Obj ps) => ps
      | Some (Arr elems ps) => (indexed_from 0 elems ++ ps)%list
      | None => []
      end
  | VStr s => indexed_from 0 (chars s)
  | _ => []
  end.

Definition own_enumerable (v : value) : M props :=
  fun h => Ok (entries_in h v) h.

(** [Object.assign(target, source)]: every own enumerable property of
    the source is written to the target by assignment ([set_prop]),
    not defined on it as an object literal or a spread would. *)
Definition Object_assign (target source : value) : M unit :=
  entries <- own_enumerable source ;;
  for_each entries (fun kv => set_prop target kv.1 kv.2).

(** lodash [forEach(collection, iteratee)]: the elements of an array in
    index order, the property values of anything else.  The iteratee of
    [getHeaders] returns [undefined], so the loop never stops early, and
    it writes only to a fresh object, so the collection read up front is
    the collection seen at every step. *)
Definition items_in (h : heap) (collection : value) : list value :=
  match collection with
  | VRef l =>
      match h !! l with
      | Some (Arr elems _) => elems
      | Some (Obj ps) => map snd ps
      | None => []
      end
  | VStr s => chars s
  | _ => []
  end.

Definition forEach (collection : value) (iteratee : value -> M unit) : M unit :=
  fun h => for_each (items_in h collection) iteratee h.

(** *** [JSON.stringify] *)

Definition dquote : string := String "034" EmptyString.
Definition backslash : string := String "092" EmptyString.

Definition hex_digit (n : nat) : string :=
  String (nth n (list_ascii_of_string "0123456789abcdef") "0"%char) EmptyString.

Definition escape_char (c : ascii) : string :=
  let n := nat_of_ascii c in
  if (n =? 34)%nat then backslash ++ dquote
  else if (n =? 92)%nat then backslash ++ backslash
  else if (n =? 8)%nat then backslash ++ "b"
  else if (n =? 9)%nat then backslash ++ "t"
  else if (n =? 10)%nat then backslash ++ "n"
  else if (n =? 12)%nat then backslash ++ "f"
  else if (n =? 13)%nat then backslash ++ "r"
  else if (n <? 32)%nat then backslash ++ "u00" ++ hex_digit (n / 16) ++ hex_digit (n mod 16)
  else String c EmptyString.

Definition QuoteJSONString (s : string) : string :=
  dquote ++ String.concat EmptyString (map escape_char (list_ascii_of_string s)) ++ dquote.

(** *** Numbers as text *)

Definition decimal (a : Z) : string := NilZero.string_of_int (Z.to_int a).

Definition digit_count (a : Z) : Z := Z.of_nat (String.length (decimal a)).

(** The double nearest to the natural number [a], ties going to the even
    significand; [None] is Infinity. *)
Definition nearest_double (a : Z) : option Z :=
  if (a <? 2 ^ 53)%Z then Some a
  else
    let shift := (Z.log2 a - 52)%Z in
    let q := Z.shiftr a shift in
    let r := (a - Z.shiftl q shift)%Z in
    let half := (2 ^ (shift - 1))%Z in
    let q' := if (half <? r)%Z || ((r =? half)%Z && Z.odd q) then (q + 1)%Z else q in
    let x := Z.shiftl q' shift in
    if (x <? 2 ^ 1024)%Z then Some x else None.

Definition rounds_to (x v : Z) : bool :=
  match nearest_double v with Some y => (y =? x)%Z | None => false end.

(** The decimal with [k] significant digits that reads back as the
    double [x], if there is one: the nearer of the two around [x], the
    even one when they are as near. *)
Definition shortest_at (x : Z) (k : Z) : option Z :=
  let u := (10 ^ Z.max 0 (digit_count x - k))%Z in
  let lo := (x / u * u)%Z in
  let hi := (lo + u)%Z in
  match rounds_to x lo, rounds_to x hi with
  | true, true =>
      if (x - lo <? hi - x)%Z then Some lo
      else if (hi - x <? x - lo)%Z then Some hi
      else if Z.even (lo / u) then Some lo else Some hi
  | true, false => Some lo
  | false, true => Some hi
  | false, false => None
  end.

Fixpoint shortest_from (x : Z) (k : Z) (tries : nat) : Z :=
  match tries with
  | O => x
  | S tries' =>
      match shortest_at x k with
      | Some v => v
      | None => shortest_from x (k + 1) tries'
      end
  end.

Fixpoint strip_zeros (rev_digits : list ascii) : list ascii :=
  match rev_digits with
  | "0"%char :: rest => strip_zeros rest
  | _ => rev_digits
  end.

Definition significand (v : Z) : string :=
  string_of_list_ascii (rev (strip_zeros (rev (list_ascii_of_string (decimal v))))).

Definition format_positive (v : Z) : string :=
  if (digit_count v <=? 21)%Z then decimal v
  else
    match significand v with
    | String d rest =>
        String d (if (rest =? EmptyString) then EmptyString else "." ++ rest)
        ++ "e+" ++ decimal (digit_count v - 1)
    | EmptyString => decimal v
    end.

(** [Number::toString] of the double nearest to the integer [n], or
    [None] when that is an infinity: the shortest decimal that reads
    back as the same double, written in full up to 21 digits and in
    exponent form beyond. *)
Definition number_to_string (n : Z) : option string :=
  if (n =? 0)%Z then Some "0"
  else
    match nearest_double (Z.abs n) with
    | None => None
    | Some x =>
        let body := format_positive (shortest_from x 1 17) in
        Some (if (n <? 0)%Z then "-" ++ body else body)
    end.

(** [JSON.stringify] writes a number that is not finite as [null]. *)
Definition number_to_json (n : Z) : string :=
  default "null" (number_to_string n).

Inductive json_out :=
| JText (s : string)
| JUndefined
| JCyclic.

(** Array elements: [undefined] is written [null]. *)
Fixpoint SerializeJSONArray (items : list json_out) : option (list string) :=
  match items with
  | [] => Some []
  | JCyclic :: _ => None
  | JUndefined :: rest => cons "null" <$> SerializeJSONArray rest
  | JText s :: rest => cons s <$> SerializeJSONArray rest
  end.

(** Object members: a property whose value is [undefined] is left out. *)
Fixpoint SerializeJSONObject (items : list (string * json_out)) : option (list string) :=
  match items with
  | [] => Some []
  | (_, JCyclic) :: _ => None
  | (_, JUndefined) :: rest => SerializeJSONObject rest
  | (k, JText s) :: rest =>
      cons (QuoteJSONString k ++ ":" ++ s) <$> SerializeJSONObject rest
  end.

(** What [JSON.stringify] descends into: the elements of an array, the
    property values of an object. *)
Definition serialized_values (c : cell) : list value :=
  match c with
  | Arr elems _ => elems
  | Obj ps => map snd ps
  end.

(** [fuel] bounds the nesting depth of objects.  With one unit per heap
    cell, running out means that some object is met again below itself:
    the structure is cyclic, which is when [JSON.stringify] throws
    ([fuel_enough] below). *)
Fixpoint SerializeJSONProperty (fuel : nat) (h : heap) (v : value) : json_out :=
  match v with
  | VUndefined => JUndefined
  | VNull => JText "null"
  | VBool true => JText "true"
  | VBool false => JText "false"
  | VNum n => JText (number_to_json n)
  | VStr s => JText (QuoteJSONString s)
  | VRef l =>
      match h !! l, fuel with
      | None, _ => JUndefined (* a dangling reference: not in a real heap *)
      | Some _, O => JCyclic
      | Some (Arr elems _), S fuel' =>
          match SerializeJSONArray (map (SerializeJSONProperty fuel' h) elems) with
          | Some parts => JText ("[" ++ String.concat "," parts ++ "]")
          | None => JCyclic
          end
      | Some (Obj ps), S fuel' =>
          match SerializeJSONObject
                  (map (fun kv => (kv.1, SerializeJSONProperty fuel' h kv.2)) ps) with
          | Some parts => JText ("{" ++ String.concat "," parts ++ "}")
          | None => JCyclic
          end
      end
  end.

(** [JSON.stringify(v)]: the text, [undefined] for [undefined], or a
    [TypeError] for a cyclic structure. *)
Definition JSON_stringify (v : value) : M value :=
  fun h =>
    match SerializeJSONProperty (length h) h v with
    | JText s => Ok (VStr s) h
    | JUndefined => Ok VUndefined h
    | JCyclic => Throw TypeError h
    end.

Local Open Scope list_scope.

(** The object at [l'] lies directly below the object at [l]: it is one
    of the values [JSON.stringify] descends into from there. *)
Definition below (h : heap) (l l' : loc) : Prop :=
  exists c, h !! l = Some c /\ VRef l' ∈ serialized_values c.

(** ** The header normalizer *)

(** [function getHeaders(origin: any)] *)
Definition getHeaders (origin : value) : M value :=
  is_array <- Array_isArray origin ;;
  if is_array : bool then
    obj <- new_object ;;
    forEach origin (fun v => Object_assign obj v) ;;
    ret obj
  else
    ret origin.

(** The object built by [forEach(origin, v => Object.assign(obj, v))]
    when [obj] lives at [t] and holds [o] so far: the closed form of
    that loop, used to state what [getHeaders] returns. *)
Definition obj_put_all (src o : props) : props :=
  fold_left (fun o kx => obj_put kx.1 kx.2 o) src o.

Definition merge_into (h : heap) (t : loc) (elems : list value) (o : props) : props :=
  fold_left (fun o v => obj_put_all (entries_in (<[t := Obj o]> h) v) o) elems o.

(** [elems] is a sequence of single-key mappings
    [[{k1: v1}, {k2: v2}, ...]] whose entries are [entries]. *)
Definition single_key_mappings (h : heap) (elems : list value) (entries : props) : Prop :=
  Forall2 (fun e kv => exists li, e = VRef li /\ h !! li = Some (Obj [kv])) elems entries.

(** The value of the last entry written under [k], if any. *)
Definition last_binding (k : string) (entries : props) : option value :=
  obj_get k (rev entries).

(** The fold rule read for every key: [normalize] turns a sequence of
    single-key mappings into one fresh mapping that binds every key of
    the sequence to the value of its last entry. *)
Definition merges_every_entry (normalize : value -> M value) : Prop :=
  forall (h : heap) (l : loc) (elems : list value) (ps entries : props),
    h !! l = Some (Arr elems ps) ->
    single_key_mappings h elems entries ->
    exists o, normalize (VRef l) h = Ok (VRef (length h)) (h ++ [Obj o])
              /\ forall k, obj_get k o = last_binding k entries.

(** ** Promises and host calls *)

(** What a callback asks of the promise it closes over.  Every callback
    of the source ends in exactly one call of [resolve] or [reject]. *)
Inductive action :=
| Resolve (v : value)
| Reject (r : value).

Definition callback := value -> M action.

Definition resolve : callback := fun v => ret (Resolve v).
Definition reject : callback := fun r => ret (Reject r).

(** A field of a configuration object: plain data or a callback. *)
Inductive field :=
| Data (v : value)
| Fn (f : callback).

Abbreviation config := (list (string * field)).

(** The host call [dd.<api>(cfg)] issued by an adapter. *)
Record request := { api : string; cfg : config }.

(** [...o] inside an object literal. *)
Definition spread (o : props) : config :=
  map (fun kv => (kv.1, Data kv.2)) o.

Inductive promise :=
| Pending
| Fulfilled (v : value)
| Rejected (r : value).

(** Only the first [resolve]/[reject] counts.  The payloads are plain
    data, never thenables, so [resolve v] fulfils with [v]. *)
Definition settle (a : action) (p : promise) : promise :=
  match p with
  | Pending =>
      match a with
      | Resolve v => Fulfilled v
      | Reject r => Rejected r
      end
  | _ => p
  end.

(** The host calls [cfg[name](payload)]; calling what is not a function
    throws in the host, and so does a callback that throws. *)
Definition host_invokes (rq : request) (name : string) (payload : value)
    (p : promise) : M promise :=
  match obj_get name (cfg rq) with
  | Some (Fn f) => a <- f payload ;; ret (settle a p)
  | _ => throw TypeError
  end.

(** ** The adapters (latest snapshot)

    An argument typed as an object is the list of its own properties;
    an argument with the default [= {}] is optional. *)

(** [export function alert({title, content, buttonText})] *)
Definition alert (opt : props) : request :=
  {| api := "alert";
     cfg := literal [("title", Data (get "title" opt));
                     ("content", Data (get "content" opt));
                     ("buttonText", Data (get "buttonText" opt));
                     ("success", Fn resolve);
                     ("fail", Fn reject)] |}.

(** [export function confirm(opt)] *)
Definition confirm (opt : props) : request :=
  {| api := "confirm";
     cfg := literal (spread opt ++ [("success", Fn resolve); ("fail", Fn reject)]) |}.

(** [export function showToast({content, type = 'none', duration = 2000} = {})] *)
Definition showToast (arg : option props) : request :=
  let opt := default [] arg in
  let content := get "content" opt in
  let type := dflt (VStr "none") (get "type" opt) in
  let duration := dflt (VNum 2000) (get "duration" opt) in
  {| api := "showToast";
     cfg := literal [("content", Data content);
                     ("type", Data type);
                     ("duration", Data duration);
                     ("success", Fn resolve);
                     ("fail", Fn reject)] |}.

(** [export function showLoading({content, delay = 0} = {})] *)
Definition showLoading (arg : option props) : request :=
  let opt := default [] arg in
  let content := get "content" opt in
  let delay := dflt (VNum 0) (get "delay" opt) in
  {| api := "showLoading";
     cfg := literal [("content", Data content);
                     ("delay", Data delay);
                     ("success", Fn resolve);
                     ("fail", Fn reject)] |}.

(** [export function showActionSheet(opt)] *)
Definition showActionSheet (opt : props) : request :=
  {| api := "showActionSheet";
     cfg := literal (spread opt ++
                     [("success", Fn (fun res =>
                                        index <- get_prop res "index" ;;
                                        resolve index));
                      ("fail", Fn reject)]) |}.

(** [export function getAuthCode()] *)
Definition getAuthCode : request :=
  {| api := "getAuthCode";
     cfg := literal [("success", Fn (fun res =>
                                       authCode <- get_prop res "authCode" ;;
                                       resolve authCode));
                     ("fail", Fn reject)] |}.

(** The promise body of [httpRequest]:
    [dd.httpRequest({headers, data, success: (res) => {...}, fail: reject, ...rest})],
    where [success] is
    [(res) => { res.headers = getHeaders(res.headers); resolve(res); }]. *)
Definition httpRequest_call (headers data : value) (rest : props) : request :=
  {| api := "httpRequest";
     cfg := literal ([("headers", Data headers);
                      ("data", Data data);
                      ("success", Fn (fun res =>
                                        raw <- get_prop res "headers" ;;
                                        normalized <- getHeaders raw ;;
                                        set_prop res "headers" normalized ;;
                                        resolve res));
                      ("fail", Fn reject)] ++ spread rest) |}.

(** [export function httpRequest(opt)] *)
Definition httpRequest (opt : props) : M request :=
  (* let { headers = {}, data, ...rest } = opt; *)
  headers <- match get "headers" opt with
             | VUndefined => new_object
             | v => ret v
             end ;;
  let data := get "data" opt in
  let rest := obj_remove "data" (obj_remove "headers" opt) in
  (* if (!headers["Content-Type"]) { ... } *)
  content_type <- get_prop headers "Content-Type" ;;
  data <- (if negb (truthy content_type)
           then set_prop headers "Content-Type" (VStr "application/json") ;;
                JSON_stringify data
           else ret data) ;;
  (* return new Promise(...) *)
  ret (httpRequest_call headers data rest).

(** [export function uploadFile(opt)] *)
Definition uploadFile (opt : props) : request :=
  {| api := "uploadFile";
     cfg := literal (spread opt ++
                     [("success", Fn (fun res => resolve res)); ("fail", Fn reject)]) |}.

(** [export function downloadFile(opt)] *)
Definition downloadFile (opt : props) : request :=
  {| api := "downloadFile";
     cfg := literal (spread opt ++
                     [("success", Fn (fun res => resolve res)); ("fail", Fn reject)]) |}.

(** [export function redirectTo(url: string)] *)
Definition redirectTo (url : value) : request :=
  {| api := "redirectTo";
     cfg := literal [("url", Data url); ("success", Fn resolve); ("fail", Fn reject)] |}.

(** [export function navigateTo(url: string)] *)
Definition navigateTo (url : value) : request :=
  {| api := "navigateTo";
     cfg := literal [("url", Data url); ("success", Fn resolve); ("fail", Fn reject)] |}.

(** [export function reLaunch(url: string)] *)
Definition reLaunch (url : value) : request :=
  {| api := "reLaunch";
     cfg := literal [("url", Data url); ("success", Fn resolve); ("fail", Fn reject)] |}.

(** [export function switchTab(url: string)] *)
Definition switchTab (url : value) : request :=
  {| api := "switchTab";
     cfg := literal [("url", Data url); ("success", Fn resolve); ("fail", Fn reject)] |}.

(** [export function setNavigationBar({title, backgroundColor, reset = false} = {})] *)
Definition setNavigationBar (arg : option props) : request :=
  let opt := default [] arg in
  {| api := "setNavigationBar";
     cfg := literal [("title", Data (get "title" opt));
                     ("backgroundColor", Data (get "backgroundColor" opt));
                     ("reset", Data (dflt (VBool false) (get "reset" opt)));
                     ("success", Fn resolve);
                     ("fail", Fn reject)] |}.

(** [export function datePicker(opt)] *)
Definition datePicker (opt : props) : request :=
  {| api := "datePicker";
     cfg := literal (spread opt ++
                     [("success", Fn (fun res =>
                                        date <- get_prop res "date" ;;
                                        resolve date));
                      ("fail", Fn reject)]) |}.

(** [export function getLocation({cacheTimeout = 30, type} = {})] *)
Definition getLocation (arg : option props) : request :=
  let opt := default [] arg in
  {| api := "getLocation";
     cfg := literal [("cacheTimeout", Data (dflt (VNum 30) (get "cacheTimeout" opt)));
                     ("type", Data (get "type" opt));
                     ("success", Fn (fun res => resolve res));
                     ("fail", Fn reject)] |}.

(** [export function openLocation({longitude, latitude, name, address, scale = 15})] *)
Definition openLocation (opt : props) : request :=
  {| api := "openLocation";
     cfg := literal [("longitude", Data (get "longitude" opt));
                     ("latitude", Data (get "latitude" opt));
                     ("name", Data (get "name" opt));
                     ("address", Data (get "address" opt));
                     ("scale", Data (dflt (VNum 15) (get "scale" opt)));
                     ("success", Fn resolve);
                     ("fail", Fn reject)] |}.

(** [export function scan(type = 'qr')] *)
Definition scan (type : value) : request :=
  {| api := "scan";
     cfg := literal [("type", Data (dflt (VStr "qr") type));
                     ("success", Fn (fun res => resolve res));
                     ("fail", Fn reject)] |}.

(** [export function complexChoose(opt)] *)
Definition complexChoose (opt : props) : request :=
  {| api := "complexChoose";
     cfg := literal (spread opt ++
                     [("success", Fn (fun res => resolve res)); ("fail", Fn reject)]) |}.

(** [export function chooseDepartments(opt)] *)
Definition chooseDepartments (opt : props) : request :=
  {| api := "chooseDepartments";
     cfg := literal (spread opt ++
                     [("success", Fn (fun res => resolve res)); ("fail", Fn reject)]) |}.

(** [export function createGroupChat(users: Array<string>)] *)
Definition createGroupChat (users : value) : request :=
  {| api := "createGroupChat";
     cfg := literal [("users", Data users);
                     ("success", Fn (fun res =>
                                       id <- get_prop res "id" ;;
                                       resolve id));
                     ("fail", Fn reject)] |}.

(** [export function choosePhonebook({title, multiple = true, limitTips, maxUsers})] *)
Definition choosePhonebook (opt : props) : request :=
  {| api := "choosePhonebook";
     cfg := literal [("title", Data (get "title" opt));
                     ("multiple", Data (dflt (VBool true) (get "multiple" opt)));
                     ("limitTips", Data (get "limitTips" opt));
                     ("maxUsers", Data (get "maxUsers" opt));
                     ("success", Fn (fun res => resolve res));
                     ("fail", Fn reject)] |}.

(** [export function chooseExternalUsers({title, multiple = true, ...})] *)
Definition chooseExternalUsers (opt : props) : request :=
  {| api := "chooseExternalUsers";
     cfg := literal [("title", Data (get "title" opt));
                     ("multiple", Data (dflt (VBool true) (get "multiple" opt)));
                     ("limitTips", Data (get "limitTips" opt));
                     ("maxUsers", Data (get "maxUsers" opt));
                     ("pickedUsers", Data (get "pickedUsers" opt));
                     ("disabledUsers", Data (get "disabledUsers" opt));
                     ("requiredUsers", Data (get "requiredUsers" opt));
                     ("success", Fn (fun res => resolve res));
                     ("fail", Fn reject)] |}.

(** [export function editExternalUser(opt)] *)
Definition editExternalUser (opt : props) : request :=
  {| api := "editExternalUser";
     cfg := literal (spread opt ++
                     [("success", Fn (fun res => resolve res)); ("fail", Fn reject)]) |}.

(** [export function chooseUserFromList({title, users, isShowCompanyName = false, disabledUsers})] *)
Definition chooseUserFromList (opt : props) : request :=
  {| api := "chooseUserFromList";
     cfg := literal [("title", Data (get "title" opt));
                     ("users", Data (get "users" opt));
                     ("isShowCompanyName", Data (dflt (VBool false) (get "isShowCompanyName" opt)));
                     ("disabledUsers", Data (get "disabledUsers" opt));
                     ("success", Fn (fun res => resolve res));
                     ("fail", Fn reject)] |}.

(** [export function setStorage(opt)] *)
Definition setStorage (opt : props) : request :=
  {| api := "setStorage";
     cfg := literal (spread opt ++ [("success", Fn resolve); ("fail", Fn reject)]) |}.

(** [export function getStorage(key: string)] *)
Definition getStorage (key : value) : request :=
  {| api := "getStorage";
     cfg := literal [("key", Data key);
                     ("success", Fn (fun res =>
                                       data <- get_prop res "data" ;;
                                       resolve data));
                     ("fail", Fn reject)] |}.

(** [export function removeStorage(key: string)] *)
Definition removeStorage (key : value) : request :=
  {| api := "removeStorage";
     cfg := literal [("key", Data key); ("success", Fn resolve); ("fail", Fn reject)] |}.

(** ** Adapters of the earlier snapshots that differ *)

Module Earlier.

(** [export function showToast(opt)], as in [src/src/index.ts] (lines
    77-89), [src/unnamed/part_001] and the second document of
    [src/unnamed/part_002]. *)
Definition showToast (opt : props) : request :=
  {| api := "showToast";
     cfg := literal (spread opt ++ [("success", Fn resolve); ("fail", Fn reject)]) |}.

(** [export function showLoading(opt)], in the same three snapshots
    ([src/src/index.ts], lines 97-108). *)
Definition showLoading (opt : props) : request :=
  {| api := "showLoading";
     cfg := literal (spread opt ++ [("success", Fn resolve); ("fail", Fn reject)]) |}.

(** [export function showActionSheet(opt)], as in [src/src/index.ts]
    only (lines 125-142): [success: (res) => { resolve(res); }].  The
    snapshot before it ([src/unnamed/part_001]) and the two after it
    call [resolve(res.index)]. *)
Definition showActionSheet (opt : props) : request :=
  {| api := "showActionSheet";
     cfg := literal (spread opt ++
                     [("success", Fn (fun res => resolve res)); ("fail", Fn reject)]) |}.

(** [export function setNavigationBar(opt)], as in the second document
    of [src/unnamed/part_002]. *)
Definition setNavigationBar (opt : props) : request :=
  {| api := "setNavigationBar";
     cfg := literal (spread opt ++ [("success", Fn resolve); ("fail", Fn reject)]) |}.

(** [export function getSystemInfoSync()], as in [src/unnamed/part_000],
    where it is wrapped in a promise. *)
Definition getSystemInfoSync : request :=
  {| api := "getSystemInfoSync";
     cfg := literal [("success", Fn (fun res => resolve res)); ("fail", Fn reject)] |}.

End Earlier.

(** The configuration [cfg rq] carries the data field [k] with value [v]. *)
Definition forwards (rq : request) (k : string) (v : value) : Prop :=
  obj_get k (cfg rq) = Some (Data v).

(** The headers object a call of [httpRequest] works on: the caller's
    own object at [l], the heap being as it was, or, when the caller
    passes no headers, a fresh empty object at the end of the heap. *)
Definition headers_at (opt : props) (h : heap) (l : loc) (h0 : heap) : Prop :=
  (get "headers" opt = VRef l /\ h0 = h)
  \/ (get "headers" opt = VUndefined /\ l = length h /\ h0 = h ++ [Obj []]).

(** The heap once [headers["Content-Type"] = "application/json"] has run
    on the object [c] at [l]. *)
Definition with_json_content_type (l : loc) (c : cell) (h0 : heap) : heap :=
  <[l := with_named_props c
           (obj_set "Content-Type" (VStr "application/json") (named_props c))]> h0.

(** ** Every promise-returning adapter of every snapshot, as one call type *)

Inductive call :=
| Call_alert (opt : props)
| Call_confirm (opt : props)
| Call_showToast (arg : option props)
| Call_showLoading (arg : option props)
| Call_showActionSheet (opt : props)
| Call_getAuthCode
| Call_httpRequest (opt : props)
| Call_uploadFile (opt : props)
| Call_downloadFile (opt : props)
| Call_redirectTo (url : value)
| Call_navigateTo (url : value)
| Call_reLaunch (url : value)
| Call_setNavigationBar (arg : option props)
| Call_switchTab (url : value)
| Call_datePicker (opt : props)
| Call_getLocation (arg : option props)
| Call_openLocation (opt : props)
| Call_scan (type : value)
| Call_complexChoose (opt : props)
| Call_chooseDepartments (opt : props)
| Call_createGroupChat (users : value)
| Call_choosePhonebook (opt : props)
| Call_chooseExternalUsers (opt : props)
| Call_editExternalUser (opt : props)
| Call_chooseUserFromList (opt : props)
| Call_setStorage (opt : props)
| Call_getStorage (key : value)
| Call_removeStorage (key : value)
| Call_earlier_showToast (opt : props)
| Call_earlier_showLoading (opt : props)
| Call_earlier_showActionSheet (opt : props)
| Call_earlier_setNavigationBar (opt : props)
| Call_earlier_getSystemInfoSync.

Definition issue (c : call) : M request :=
  match c with
  | Call_alert opt => ret (alert opt)
  | Call_confirm opt => ret (confirm opt)
  | Call_showToast arg => ret (showToast arg)
  | Call_showLoading arg => ret (showLoading arg)
  | Call_showActionSheet opt => ret (showActionSheet opt)
  | Call_getAuthCode => ret getAuthCode
  | Call_httpRequest opt => httpRequest opt
  | Call_uploadFile opt => ret (uploadFile opt)
  | Call_downloadFile opt => ret (downloadFile opt)
  | Call_redirectTo url => ret (redirectTo url)
  | Call_navigateTo url => ret (navigateTo url)
  | Call_reLaunch url => ret (reLaunch url)
  | Call_setNavigationBar arg => ret (setNavigationBar arg)
  | Call_switchTab url => ret (switchTab url)
  | Call_datePicker opt => ret (datePicker opt)
  | Call_getLocation arg => ret (getLocation arg)
  | Call_openLocation opt => ret (openLocation opt)
  | Call_scan type => ret (scan type)
  | Call_complexChoose opt => ret (complexChoose opt)
  | Call_chooseDepartments opt => ret (chooseDepartments opt)
  | Call_createGroupChat users => ret (createGroupChat users)
  | Call_choosePhonebook opt => ret (choosePhonebook opt)
  | Call_chooseExternalUsers opt => ret (chooseExternalUsers opt)
  | Call_editExternalUser opt => ret (editExternalUser opt)
  | Call_chooseUserFromList opt => ret (chooseUserFromList opt)
  | Call_setStorage opt => ret (setStorage opt)
  | Call_getStorage key => ret (getStorage key)
  | Call_removeStorage key => ret (removeStorage key)
  | Call_earlier_showToast opt => ret (Earlier.showToast opt)
  | Call_earlier_showLoading opt => ret (Earlier.showLoading opt)
  | Call_earlier_showActionSheet opt => ret (Earlier.showActionSheet opt)
  | Call_earlier_setNavigationBar opt => ret (Earlier.setNavigationBar opt)
  | Call_earlier_getSystemInfoSync => ret Earlier.getSystemInfoSync
  end.

(** The heap a computation leaves behind, whether it returned or threw. *)
Definition heap_after {A} (r : result A) : heap :=
  match r with Ok _ h => h | Throw _ h => h end.

(** [httpRequest] spreads the rest of its argument after its callbacks,
    so a field of the argument named [success] or [fail] would replace
    them.  The declared parameter type has no such field; every other
    adapter writes its callbacks last. *)
Definition callbacks_not_shadowed (c : call) : Prop :=
  match c with
  | Call_httpRequest opt => obj_get "success" opt = None /\ obj_get "fail" opt = None
  | _ => True
  end.

(** The adapter [adapter] resolves with the [index] field of the
    payload: the projection rule for the action sheet. *)
Definition resolves_with_index (adapter : props -> request) : Prop :=
  forall (opt : props) (h : heap) (r : loc) (ps : props) (i : Z),
    h !! r = Some (Obj ps) ->
    obj_get "index" ps = Some (VNum i) ->
    host_invokes (adapter opt) "success" (VRef r) Pending h = Ok (Fulfilled (VNum i)) h.

(** The toast adapter [adapter] substitutes the defaults for an omitted
    [type] and [duration]. *)
Definition substitutes_toast_defaults (adapter : props -> request) : Prop :=
  forall opt : props,
    obj_get "type" opt = None ->
    obj_get "duration" opt = None ->
    forwards (adapter opt) "type" (VStr "none")
    /\ forwards (adapter opt) "duration" (VNum 2000).

(** The loading adapter [adapter] substitutes the default for an omitted
    [delay]. *)
Definition substitutes_loading_default (adapter : props -> request) : Prop :=
  forall opt : props,
    obj_get "delay" opt = None ->
    forwards (adapter opt) "delay" (VNum 0).

(** The name of a header is case-insensitive: [k] names the content
    type when it is some spelling of [content-type]. *)
Definition lower_ascii (c : ascii) : ascii :=
  let n := nat_of_ascii c in
  if (65 <=? n)%nat && (n <=? 90)%nat then ascii_of_nat (n + 32) else c.

Fixpoint lower (s : string) : string :=
  match s with
  | EmptyString => EmptyString
  | String c rest => String (lower_ascii c) (lower rest)
  end.

Definition names_content_type (k : string) : bool :=
  (lower k =? "content-type")%string.

(** The headers [ps] carry an explicit content-type entry that is not
    the JSON one. *)
Definition explicit_non_json_content_type (ps : props) : Prop :=
  exists (k ct : string),
    names_content_type k = true
    /\ obj_get k ps = Some (VStr ct)
    /\ ct <> "application/json"%string.

(** The second rule of the default-header injection, read for every
    such entry: the data of the call reaches the host as the caller
    gave it. *)
Definition forwards_data_untouched (request_of : props -> M request) : Prop :=
  forall (opt : props) (h : heap) (l : loc) (ps : props) (rq : request) (h1 : heap),
    get "headers" opt = VRef l ->
    h !! l = Some (Obj ps) ->
    explicit_non_json_content_type ps ->
    request_of opt h = Ok rq h1 ->
    forwards rq "data" (get "data" opt).

(** The JSON text of the object [{x: 1}]. *)
Definition json_x1 : string :=
  ("{" ++ dquote ++ "x" ++ dquote ++ ":1}")%string.

(** ** Synchronous adapters and event handlers

    A synchronous adapter returns what the host entry point returns;
    it is modelled by the host call it makes, which carries no
    callback. *)

(** [export function navigateBack(delta = 1)] *)
Definition navigateBack (delta : value) : request :=
  {| api := "navigateBack";
     cfg := literal [("delta", Data (dflt (VNum 1) delta))] |}.

(** [export function createAnimation({duration = 400,
    timeFunction = 'linear', delay = 0, transformOrigin = '50'} = {})] *)
Definition createAnimation (arg : option props) : request :=
  let opt := default [] arg in
  {| api := "createAnimation";
     cfg := literal [("duration", Data (dflt (VNum 400) (get "duration" opt)));
                     ("timeFunction", Data (dflt (VStr "linear") (get "timeFunction" opt)));
                     ("delay", Data (dflt (VNum 0) (get "delay" opt)));
                     ("transformOrigin",
                      Data (dflt (VStr "50") (get "transformOrigin" opt)))] |}.

(** [export function onKeyboardShow(res: any) { return res.data.height; }] *)
Definition onKeyboardShow (res : value) : M value :=
  data <- get_prop res "data" ;;
  get_prop data "height".

(** ** Tables of the adapters, by the shape of their bodies *)

(** The calls whose success callback is [resolve] itself, or
    [(res) => { resolve(res); }]. *)
Definition resolves_verbatim (c : call) : bool :=
  match c with
  | Call_showActionSheet _ | Call_getAuthCode | Call_httpRequest _
  | Call_datePicker _ | Call_createGroupChat _ | Call_getStorage _ => false
  | _ => true
  end.

(** The calls whose success callback is [resolve(res.<field>)], with
    the field. *)
Definition projected_field (c : call) : option string :=
  match c with
  | Call_showActionSheet _ => Some "index"
  | Call_getAuthCode => Some "authCode"
  | Call_datePicker _ => Some "date"
  | Call_createGroupChat _ => Some "id"
  | Call_getStorage _ => Some "data"
  | _ => None
  end.

(** The calls whose success callback reads a property of the payload. *)
Definition reads_payload (c : call) : bool :=
  match c with
  | Call_httpRequest _ => true
  | _ => match projected_field c with Some _ => true | None => false end
  end.

(** The adapters of the shape [dd.x({...opt, success, fail})]. *)
Definition spread_adapters : list (props -> request) :=
  [confirm; showActionSheet; uploadFile; downloadFile; datePicker;
   complexChoose; chooseDepartments; editExternalUser; setStorage;
   Earlier.showToast; Earlier.showLoading; Earlier.showActionSheet;
   Earlier.setNavigationBar].

(** The adapters that destructure their argument, each with the fields
    it passes on as they are and with all the keys of its
    configuration, in order. *)
Definition destructuring_adapters
  : list ((props -> request) * list string * list string) :=
  [(alert, ["title"; "content"; "buttonText"],
    ["title"; "content"; "buttonText"; "success"; "fail"]);
   (fun opt => showToast (Some opt), ["content"],
    ["content"; "type"; "duration"; "success"; "fail"]);
   (fun opt => showLoading (Some opt), ["content"],
    ["content"; "delay"; "success"; "fail"]);
   (fun opt => setNavigationBar (Some opt), ["title"; "backgroundColor"],
    ["title"; "backgroundColor"; "reset"; "success"; "fail"]);
   (fun opt => getLocation (Some opt), ["type"],
    ["cacheTimeout"; "type"; "success"; "fail"]);
   (openLocation, ["longitude"; "latitude"; "name"; "address"],
    ["longitude"; "latitude"; "name"; "address"; "scale"; "success"; "fail"]);
   (choosePhonebook, ["title"; "limitTips"; "maxUsers"],
    ["title"; "multiple"; "limitTips"; "maxUsers"; "success"; "fail"]);
   (chooseExternalUsers,
    ["title"; "limitTips"; "maxUsers"; "pickedUsers"; "disabledUsers"; "requiredUsers"],
    ["title"; "multiple"; "limitTips"; "maxUsers"; "pickedUsers"; "disabledUsers";
     "requiredUsers"; "success"; "fail"]);
   (chooseUserFromList, ["title"; "users"; "disabledUsers"],
    ["title"; "users"; "isShowCompanyName"; "disabledUsers"; "success"; "fail"]);
   (fun opt => createAnimation (Some opt), [],
    ["duration"; "timeFunction"; "delay"; "transformOrigin"])].

(** The options with a destructuring default: adapter, field, default. *)
Definition defaulted_options : list ((props -> request) * string * value) :=
  [(fun opt => showToast (Some opt), "type", VStr "none");
   (fun opt => showToast (Some opt), "duration", VNum 2000);
   (fun opt => showLoading (Some opt), "delay", VNum 0);
   (fun opt => setNavigationBar (Some opt), "reset", VBool false);
   (fun opt => getLocation (Some opt), "cacheTimeout", VNum 30);
   (openLocation, "scale", VNum 15);
   (choosePhonebook, "multiple", VBool true);
   (chooseExternalUsers, "multiple", VBool true);
   (chooseUserFromList, "isShowCompanyName", VBool false);
   (fun opt => createAnimation (Some opt), "duration", VNum 400);
   (fun opt => createAnimation (Some opt), "timeFunction", VStr "linear");
   (fun opt => createAnimation (Some opt), "delay", VNum 0);
   (fun opt => createAnimation (Some opt), "transformOrigin", VStr "50")].

(** Every reference among [elems] points into the heap [h]. *)
Definition live_values (h : heap) (elems : list value) : Prop :=
  Forall (fun e => forall l, e = VRef l -> l < length h) elems.

(** Everything [Object.assign] copies from the elements of a sequence,
    in order. *)
Definition all_entries (h : heap) (elems : list value) : props :=
  concat (map (entries_in h) elems).

(** * Properties *)

(** ** Property lists *)

Section PropertyListFacts.
Context {A : Type}.
Implicit Types (k : string) (x : A) (o : list (string * A)).

Lemma obj_get_app k o1 o2 :
  obj_get k (o1 ++ o2) =
  match obj_get k o1 with Some x => Some x | None => obj_get k o2 end.
Proof.
  induction o1 as [|[k' x'] o1 IH]; simpl; [reflexivity|].
  destruct (k =? k'); [reflexivity | exact IH].
Qed.

Lemma obj_get_replace_eq k x o :
  has_key k o = true -> obj_get k (obj_replace k x o) = Some x.
Proof.
  unfold has_key. induction o as [|[k' x'] o IH]; simpl; [discriminate|].
  destruct (k =? k') eqn:E; simpl.
  - rewrite String.eqb_refl. reflexivity.
  - rewrite E. exact IH.
Qed.

Lemma obj_get_replace_ne k k' x o :
  k <> k' -> obj_get k' (obj_replace k x o) = obj_get k' o.
Proof.
  intros Hne. induction o as [|[k2 x2] o IH]; simpl; [reflexivity|].
  destruct (k =? k2) eqn:E; simpl.
  - apply String.eqb_eq in E. subst k2.
    assert ((k' =? k) = false) as -> by (apply String.eqb_neq; congruence).
    reflexivity.
  - destruct (k' =? k2); [reflexivity | exact IH].
Qed.

Lemma obj_get_insert_index_eq n k x o :
  obj_get k o = None -> obj_get k (obj_insert_index n k x o) = Some x.
Proof.
  induction o as [|[k' x'] o IH]; simpl.
  - rewrite String.eqb_refl. reflexivity.
  - destruct (k =? k') eqn:E; [discriminate|]. intros Hget.
    destruct (array_index k') as [n'|]; [destruct (n <? n')%N|]; simpl;
      rewrite ?String.eqb_refl, ?E; auto.
Qed.

Lemma obj_get_insert_index_ne n k k' x o :
  k <> k' -> obj_get k' (obj_insert_index n k x o) = obj_get k' o.
Proof.
  intros Hne.
  assert ((k' =? k) = false) as Hk by (apply String.eqb_neq; congruence).
  induction o as [|[k2 x2] o IH]; simpl.
  - rewrite Hk. reflexivity.
  - destruct (array_index k2) as [n'|]; [destruct (n <? n')%N|]; simpl;
      rewrite ?Hk; try reflexivity.
    destruct (k' =? k2); [reflexivity | exact IH].
Qed.

Lemma obj_get_set_eq k x o : obj_get k (obj_set k x o) = Some x.
Proof.
  unfold obj_set. destruct (has_key k o) eqn:E.
  - apply obj_get_replace_eq, E.
  - unfold has_key in E. destruct (obj_get k o) eqn:G; [discriminate|].
    unfold obj_add. destruct (array_index k).
    + apply obj_get_insert_index_eq, G.
    + rewrite obj_get_app, G. simpl. rewrite String.eqb_refl. reflexivity.
Qed.

Lemma obj_get_set_ne k k' x o :
  k <> k' -> obj_get k' (obj_set k x o) = obj_get k' o.
Proof.
  intros Hne. unfold obj_set. destruct (has_key k o).
  - apply obj_get_replace_ne, Hne.
  - unfold obj_add. destruct (array_index k).
    + apply obj_get_insert_index_ne, Hne.
    + rewrite obj_get_app. simpl.
      assert ((k' =? k) = false) as -> by (apply String.eqb_neq; congruence).
      destruct (obj_get k' o); reflexivity.
Qed.

Lemma obj_get_remove_eq k o : obj_get k (obj_remove k o) = None.
Proof.
  induction o as [|[k' x'] o IH]; simpl; [reflexivity|].
  destruct (k =? k') eqn:E; simpl; rewrite ?E; exact IH.
Qed.

Lemma obj_get_remove_ne k k' o :
  k <> k' -> obj_get k' (obj_remove k o) = obj_get k' o.
Proof.
  intros Hne. induction o as [|[k2 x2] o IH]; simpl; [reflexivity|].
  destruct (k =? k2) eqn:E; simpl.
  - apply String.eqb_eq in E. subst k2.
    assert ((k' =? k) = false) as -> by (apply String.eqb_neq; congruence).
    exact IH.
  - destruct (k' =? k2); [reflexivity | exact IH].
Qed.

(** A merge is decided by the last entry written under each key. *)
Lemma obj_get_assign k src o :
  obj_get k (obj_assign src o) =
  match obj_get k (rev src) with Some x => Some x | None => obj_get k o end.
Proof.
  unfold obj_assign. revert o.
  induction src as [|[k' x'] src IH]; intros o; simpl; [reflexivity|].
  rewrite IH, obj_get_app. destruct (obj_get k (rev src)); [reflexivity|].
  simpl. destruct (k =? k') eqn:E.
  - apply String.eqb_eq in E. subst k'. apply obj_get_set_eq.
  - apply obj_get_set_ne. apply String.eqb_neq in E. congruence.
Qed.

Lemma obj_assign_app src1 src2 o :
  obj_assign (src1 ++ src2) o = obj_assign src2 (obj_assign src1 o).
Proof. unfold obj_assign. apply fold_left_app. Qed.

Lemma obj_get_rev_None k o : obj_get k o = None -> obj_get k (rev o) = None.
Proof.
  induction o as [|[k' x'] o IH]; simpl; [reflexivity|].
  destruct (k =? k') eqn:E; [discriminate|]. intros H.
  rewrite obj_get_app, (IH H). simpl. rewrite E. reflexivity.
Qed.

Lemma obj_get_assign_absent k src o :
  obj_get k src = None -> obj_get k (obj_assign src o) = obj_get k o.
Proof. intros H. rewrite obj_get_assign, (obj_get_rev_None _ _ H). reflexivity. Qed.
End PropertyListFacts.

Lemma obj_get_spread k (o : props) : obj_get k (spread o) = Data <$> obj_get k o.
Proof.
  induction o as [|[k' v] o IH]; simpl; [reflexivity|].
  destruct (k =? k'); [reflexivity | exact IH].
Qed.

(** ** [JSON.stringify]: one unit of fuel per heap cell is enough *)

Section Fuel.
Variable h : heap.

Local Abbreviation ser fuel v := (SerializeJSONProperty fuel h v).
Local Abbreviation below := (below h).

Lemma fmap_cons_None {A} (x : A) (o : option (list A)) :
  cons x <$> o = None <-> o = None.
Proof. destruct o; simpl; split; congruence. Qed.

Lemma SerializeJSONArray_None (items : list json_out) :
  SerializeJSONArray items = None <-> JCyclic ∈ items.
Proof.
  induction items as [|x items IH]; simpl.
  - split; [discriminate | intros H; inversion H].
  - rewrite elem_of_cons, <- IH.
    destruct x; rewrite ?fmap_cons_None; split; try tauto;
      try (intros [H|H]; [discriminate H | exact H]).
Qed.

Lemma SerializeJSONObject_None (items : list (string * json_out)) :
  SerializeJSONObject items = None <-> JCyclic ∈ map snd items.
Proof.
  induction items as [|[k x] items IH]; simpl.
  - split; [discriminate | intros H; inversion H].
  - rewrite elem_of_cons, <- IH.
    destruct x; rewrite ?fmap_cons_None; split; try tauto;
      try (intros [H|H]; [discriminate H | exact H]).
Qed.

Lemma ser_primitive (fuel fuel' : nat) (v : value) :
  (forall l, v <> VRef l) -> ser fuel v = ser fuel' v.
Proof. destruct v, fuel, fuel'; try reflexivity; intros H; destruct (H l eq_refl). Qed.

Lemma ser_cyclic_inv (fuel : nat) (v : value) :
  ser fuel v = JCyclic -> exists l c, v = VRef l /\ h !! l = Some c.
Proof.
  destruct v as [| |[]| | |l], fuel; simpl; try discriminate;
    destruct (h !! l) as [c|] eqn:Hl; try discriminate; eauto.
Qed.

Lemma ser_cyclic_zero (l : loc) (c : cell) :
  h !! l = Some c -> ser 0 (VRef l) = JCyclic.
Proof. simpl. intros ->. destruct c; reflexivity. Qed.

Lemma ser_cyclic_succ (fuel : nat) (l : loc) :
  ser (S fuel) (VRef l) = JCyclic
  <-> exists c v, h !! l = Some c /\ v ∈ serialized_values c /\ ser fuel v = JCyclic.
Proof.
  simpl. destruct (h !! l) as [[ps|elems ps]|] eqn:Hl.
  - destruct (SerializeJSONObject _) eqn:E.
    + split; [discriminate|]. intros (c & v & [= <-] & Hin & Hv). exfalso.
      assert (SerializeJSONObject
                (map (fun kv => (kv.1, ser fuel kv.2)) ps) = None) as E';
        [|congruence].
      apply SerializeJSONObject_None. rewrite map_map. simpl.
      simpl in Hin. apply list_elem_of_fmap in Hin as ([k v'] & -> & Hin).
      apply list_elem_of_fmap. exists (k, v'). split; [symmetry; exact Hv | exact Hin].
    + split; [intros _ | reflexivity].
      apply SerializeJSONObject_None in E. rewrite map_map in E. simpl in E.
      apply list_elem_of_fmap in E as ([k v] & Hv & Hin).
      exists (Obj ps), v. split; [reflexivity|]. split; [|symmetry; exact Hv].
      simpl. apply list_elem_of_fmap. exists (k, v). split; [reflexivity | exact Hin].
  - destruct (SerializeJSONArray _) eqn:E.
    + split; [discriminate|]. intros (c & v & [= <-] & Hin & Hv). exfalso.
      assert (SerializeJSONArray (map (SerializeJSONProperty fuel h) elems) = None) as E';
        [|congruence].
      apply SerializeJSONArray_None. apply list_elem_of_fmap.
      exists v. split; [symmetry; exact Hv | exact Hin].
    + split; [intros _ | reflexivity].
      apply SerializeJSONArray_None in E.
      apply list_elem_of_fmap in E as (v & Hv & Hin).
      exists (Arr elems ps), v. split; [reflexivity|]. split; [exact Hin | symmetry; exact Hv].
  - split; [discriminate | intros (c & v & [=] & _)].
Qed.

Lemma ser_ref_succ (fuel : nat) (l : loc) :
  ser (S fuel) (VRef l)
  = match h !! l with
    | None => JUndefined
    | Some (Arr elems _) =>
        match SerializeJSONArray (map (SerializeJSONProperty fuel h) elems) with
        | Some parts => JText ("[" ++ String.concat "," parts ++ "]")
        | None => JCyclic
        end
    | Some (Obj ps) =>
        match SerializeJSONObject
                (map (fun kv => (kv.1, SerializeJSONProperty fuel h kv.2)) ps) with
        | Some parts => JText ("{" ++ String.concat "," parts ++ "}")
        | None => JCyclic
        end
    end.
Proof. simpl. destruct (h !! l) as [[|]|]; reflexivity. Qed.

Lemma ser_below (fuel : nat) (l l' : loc) :
  below l l' -> ser fuel (VRef l') = JCyclic -> ser (S fuel) (VRef l) = JCyclic.
Proof.
  intros (c & Hl & Hin) Hcyc. apply ser_cyclic_succ. eauto.
Qed.

(** More fuel does not change an answer that was not [JCyclic]. *)
Lemma ser_stable (fuel : nat) (v : value) :
  ser fuel v <> JCyclic -> ser (S fuel) v = ser fuel v.
Proof.
  revert v. induction fuel as [|fuel IH]; intros v Hv.
  - destruct v as [| |[]| | |l]; try reflexivity.
    simpl in *. destruct (h !! l) as [[ps|elems ps]|]; congruence.
  - destruct v as [| |[]| | |l]; try reflexivity.
    assert (forall c v', h !! l = Some c -> v' ∈ serialized_values c ->
                         ser (S fuel) v' = ser fuel v') as Hsub.
    { intros c v' Hl Hin. apply IH. intros Hcyc. apply Hv.
      apply ser_cyclic_succ. eauto. }
    clear Hv. rewrite !ser_ref_succ.
    destruct (h !! l) as [[ps|elems ps]|]; [| |reflexivity].
    + assert (map (fun kv => (kv.1, SerializeJSONProperty (S fuel) h kv.2)) ps
              = map (fun kv => (kv.1, SerializeJSONProperty fuel h kv.2)) ps) as ->;
        [|reflexivity].
      apply map_ext_in. intros [k v'] Hin. simpl. f_equal.
      apply (Hsub (Obj ps)); [reflexivity|]. simpl.
      apply list_elem_of_fmap. exists (k, v'). split; [reflexivity|].
      apply list_elem_of_In, Hin.
    + assert (map (SerializeJSONProperty (S fuel) h) elems
              = map (SerializeJSONProperty fuel h) elems) as ->; [|reflexivity].
      apply map_ext_in. intros v' Hin.
      apply (Hsub (Arr elems ps)); [reflexivity|]. simpl.
      apply list_elem_of_In, Hin.
Qed.

Lemma ser_stable_le (fuel fuel' : nat) (v : value) :
  fuel <= fuel' -> ser fuel v <> JCyclic -> ser fuel' v = ser fuel v.
Proof.
  intros Hle Hv. induction Hle as [|fuel' Hle IH]; [reflexivity|].
  rewrite ser_stable; [exact IH | congruence].
Qed.

(** An answer [JCyclic] with fuel [n] comes with a descent through
    [n + 1] live objects. *)
Lemma ser_cyclic_descent (fuel : nat) (l : loc) :
  ser fuel (VRef l) = JCyclic ->
  exists p : nat -> loc,
    p 0 = l
    /\ (forall i, i <= fuel -> p i < length h)
    /\ (forall i, i < fuel -> below (p i) (p (S i))).
Proof.
  revert l. induction fuel as [|fuel IH]; intros l Hcyc.
  - destruct (ser_cyclic_inv _ _ Hcyc) as (l0 & c & [= <-] & Hl).
    exists (fun _ => l). split; [reflexivity|]. split; [|intros i Hi; lia].
    intros i _. eapply lookup_lt_Some, Hl.
  - apply ser_cyclic_succ in Hcyc as (c & v & Hl & Hin & Hv).
    destruct (ser_cyclic_inv _ _ Hv) as (l' & c' & -> & Hl').
    destruct (IH l' Hv) as (p & Hp0 & Hlt & Hstep).
    exists (fun i => match i with O => l | S j => p j end).
    split; [reflexivity|]. split.
    + intros [|i] Hi; [eapply lookup_lt_Some, Hl | apply Hlt; lia].
    + intros [|i] Hi.
      * rewrite Hp0. exists c. split; assumption.
      * apply Hstep. lia.
Qed.

(** A descent that long meets some object twice; from there on the
    serializer runs out of any fuel. *)
Lemma ser_cyclic_forever (l : loc) :
  ser (length h) (VRef l) = JCyclic -> forall fuel, ser fuel (VRef l) = JCyclic.
Proof.
  intros Hcyc.
  destruct (ser_cyclic_descent _ _ Hcyc) as (p & Hp0 & Hlt & Hstep).
  destruct (nat_pigeonhole p (S (length h)) (length h)) as (i1 & i2 & [Hi Hi2] & Heq);
    [lia | intros i Hi; apply Hlt; lia |].
  assert (forall i, i <= length h -> exists c, h !! p i = Some c) as Hlive.
  { intros i Hi'. apply lookup_lt_is_Some_2, Hlt, Hi'. }
  assert (forall fuel i, i1 <= i <= i2 -> ser fuel (VRef (p i)) = JCyclic) as Hloop.
  { induction fuel as [|fuel IH]; intros i Hrange.
    - destruct (Hlive i) as [c Hc]; [lia|]. apply (ser_cyclic_zero _ _ Hc).
    - destruct (decide (i = i2)) as [->|Hne].
      + rewrite <- Heq. apply (ser_below fuel (p i1) (p (S i1))).
        * apply Hstep. lia.
        * apply IH. lia.
      + apply (ser_below fuel (p i) (p (S i))).
        * apply Hstep. lia.
        * apply IH. lia. }
  assert (forall k i, i + k = i1 -> forall fuel, ser fuel (VRef (p i)) = JCyclic) as Hlead.
  { induction k as [|k IH]; intros i Hik fuel.
    - apply Hloop. lia.
    - destruct fuel as [|fuel].
      + destruct (Hlive i) as [c Hc]; [lia|]. apply (ser_cyclic_zero _ _ Hc).
      + apply (ser_below fuel (p i) (p (S i))).
        * apply Hstep. lia.
        * apply IH. lia. }
  intros fuel. rewrite <- Hp0. apply (Hlead i1 0). lia.
Qed.

(** With at least one unit of fuel per heap cell the answer no longer
    depends on the fuel: [JCyclic] then means a cyclic structure. *)
Lemma fuel_enough (fuel : nat) (v : value) :
  length h <= fuel -> ser fuel v = ser (length h) v.
Proof.
  intros Hle. destruct (ser (length h) v) eqn:E; rewrite <- E.
  - apply ser_stable_le; [exact Hle | rewrite E; discriminate].
  - apply ser_stable_le; [exact Hle | rewrite E; discriminate].
  - destruct (ser_cyclic_inv _ _ E) as (l & c & -> & _).
    rewrite E. apply ser_cyclic_forever, E.
Qed.

End Fuel.

(** [JSON.stringify] on small inputs: an [undefined] element is written
    [null], an [undefined] property is left out, a string is quoted and
    escaped; [undefined] has no text; a cyclic structure throws. *)
Example JSON_stringify_nested :
  JSON_stringify (VRef 0)
    [Obj [("a", VRef 1); ("b", VUndefined); ("c", VStr ("x" ++ dquote ++ "y"))];
     Arr [VNum (-5); VUndefined; VNull; VBool true] []]
  = Ok (VStr ("{" ++ dquote ++ "a" ++ dquote ++ ":[-5,null,null,true],"
                  ++ dquote ++ "c" ++ dquote ++ ":"
                  ++ dquote ++ "x" ++ backslash ++ dquote ++ "y" ++ dquote ++ "}"))
       [Obj [("a", VRef 1); ("b", VUndefined); ("c", VStr ("x" ++ dquote ++ "y"))];
        Arr [VNum (-5); VUndefined; VNull; VBool true] []].
Proof. reflexivity. Qed.

Example JSON_stringify_undefined :
  JSON_stringify VUndefined [] = Ok VUndefined [].
Proof. reflexivity. Qed.

Example JSON_stringify_cyclic :
  JSON_stringify (VRef 0) [Obj [("self", VRef 1)]; Arr [VRef 0] []]
  = Throw TypeError [Obj [("self", VRef 1)]; Arr [VRef 0] []].
Proof. reflexivity. Qed.

(** Numbers: plain decimal up to 21 digits, the shortest digits that
    identify the double, exponent form from [1e21], [null] for an
    infinity. *)
Example JSON_stringify_numbers :
  map number_to_json
    [0; -5; 2000; 9007199254740993; 1152921504606846976; 10 ^ 21; 10 ^ 23;
     2 ^ 70; 2 ^ 1024]%Z
  = ["0"; "-5"; "2000"; "9007199254740992"; "1152921504606847000"; "1e+21"; "1e+23";
     "1.1805916207174113e+21"; "null"].
Proof. vm_compute. reflexivity. Qed.

(** ** The heap during a merge *)

Lemma obj_put_other (k : string) (x : value) (o : props) :
  k <> proto_key -> obj_put k x o = obj_set k x o.
Proof.
  intros Hk. unfold obj_put. apply String.eqb_neq in Hk. rewrite Hk. reflexivity.
Qed.

Lemma obj_put_proto (x : value) (o : props) :
  obj_get proto_key o = None -> obj_put proto_key x o = o.
Proof.
  intros Ho. unfold obj_put, has_key. rewrite Ho, String.eqb_refl. reflexivity.
Qed.

Lemma set_prop_ref (l : loc) (c : cell) (k : string) (x : value) (h : heap) :
  h !! l = Some c ->
  k <> proto_key ->
  set_prop (VRef l) k x h
  = Ok tt (<[l := with_named_props c (obj_set k x (named_props c))]> h).
Proof.
  intros Hl Hk. unfold set_prop. rewrite Hl, obj_put_other by exact Hk. reflexivity.
Qed.

Lemma named_props_with (c : cell) (ps : props) :
  named_props (with_named_props c ps) = ps.
Proof. destruct c; reflexivity. Qed.

Lemma settable_app (a b : props) :
  settable (a ++ b) = settable a ++ settable b.
Proof.
  induction a as [|[k x] a IH]; simpl; [reflexivity|].
  destruct (k =? proto_key); simpl; rewrite IH; reflexivity.
Qed.

Lemma settable_keys (entries : props) :
  Forall (fun kv => kv.1 <> proto_key) entries -> settable entries = entries.
Proof.
  induction 1 as [|[k x] entries Hk _ IH]; simpl; [reflexivity|].
  apply String.eqb_neq in Hk. simpl in Hk. rewrite Hk, IH. reflexivity.
Qed.

(** A key other than [__proto__] is bound in the settable entries as it
    is in all of them; [__proto__] is bound in none. *)
Lemma obj_get_rev_settable (k : string) (entries : props) :
  k <> proto_key ->
  obj_get k (rev (settable entries)) = obj_get k (rev entries).
Proof.
  intros Hk. induction entries as [|[k' x] entries IH]; simpl; [reflexivity|].
  destruct (k' =? proto_key) eqn:E.
  - apply String.eqb_eq in E. subst k'.
    rewrite obj_get_app, IH. destruct (obj_get k (rev entries)); [reflexivity|].
    simpl. apply String.eqb_neq in Hk. rewrite Hk. reflexivity.
  - simpl. rewrite !obj_get_app, IH. reflexivity.
Qed.

Lemma obj_get_proto_settable (entries : props) :
  obj_get proto_key (settable entries) = None.
Proof.
  induction entries as [|[k x] entries IH]; simpl; [reflexivity|].
  destruct (k =? proto_key) eqn:E; [exact IH|].
  cbn [obj_get]. rewrite String.eqb_sym, E. exact IH.
Qed.

Lemma obj_get_proto_assign_settable (entries o : props) :
  obj_get proto_key o = None ->
  obj_get proto_key (obj_assign (settable entries) o) = None.
Proof.
  intros Ho. rewrite obj_get_assign.
  rewrite obj_get_rev_None by apply obj_get_proto_settable. exact Ho.
Qed.

(** Written to an object without an own [__proto__], the entries add
    their settable part. *)
Lemma obj_put_all_settable (src o : props) :
  obj_get proto_key o = None ->
  obj_put_all src o = obj_assign (settable src) o.
Proof.
  unfold obj_put_all, obj_assign. revert o.
  induction src as [|[k x] src IH]; intros o Ho; simpl; [reflexivity|].
  destruct (k =? proto_key) eqn:E.
  - apply String.eqb_eq in E. subst k. rewrite obj_put_proto by exact Ho.
    apply IH, Ho.
  - apply String.eqb_neq in E. rewrite obj_put_other by exact E.
    simpl. apply IH. rewrite obj_get_set_ne by congruence. exact Ho.
Qed.

Lemma for_each_set_prop (t : loc) (entries o : props) (h : heap) :
  h !! t = Some (Obj o) ->
  for_each entries (fun kv => set_prop (VRef t) kv.1 kv.2) h
  = Ok tt (<[t := Obj (obj_put_all entries o)]> h).
Proof.
  revert o h. induction entries as [|[k x] entries IH]; intros o h Ht; simpl.
  - unfold ret. rewrite list_insert_id by exact Ht. reflexivity.
  - unfold bind, set_prop at 1. rewrite Ht. simpl.
    rewrite (IH (obj_put k x o)).
    + rewrite list_insert_insert_eq. reflexivity.
    + apply list_lookup_insert_eq. eapply lookup_lt_Some, Ht.
Qed.

Lemma Object_assign_run (t : loc) (source : value) (o : props) (h : heap) :
  h !! t = Some (Obj o) ->
  Object_assign (VRef t) source h
  = Ok tt (<[t := Obj (obj_put_all (entries_in h source) o)]> h).
Proof.
  intros Ht. unfold Object_assign, bind, own_enumerable.
  apply for_each_set_prop, Ht.
Qed.

Lemma merge_into_insert (h : heap) (t : loc) (elems : list value) (o o0 : props) :
  merge_into (<[t := Obj o0]> h) t elems o = merge_into h t elems o.
Proof.
  unfold merge_into. revert o.
  induction elems as [|v elems IH]; intros o; cbn [fold_left]; [reflexivity|].
  rewrite list_insert_insert_eq. apply IH.
Qed.

Lemma for_each_Object_assign (t : loc) (elems : list value) (o : props) (h : heap) :
  h !! t = Some (Obj o) ->
  for_each elems (fun v => Object_assign (VRef t) v) h
  = Ok tt (<[t := Obj (merge_into h t elems o)]> h).
Proof.
  revert o h. induction elems as [|v elems IH]; intros o h Ht; simpl.
  - unfold ret. rewrite list_insert_id by exact Ht. reflexivity.
  - unfold bind. rewrite (Object_assign_run t v o h Ht).
    assert (t < length h) as Hlt by (eapply lookup_lt_Some, Ht).
    rewrite (IH (obj_put_all (entries_in h v) o)) by (apply list_lookup_insert_eq, Hlt).
    rewrite list_insert_insert_eq, merge_into_insert.
    unfold merge_into. cbn [fold_left].
    rewrite (list_insert_id h t (Obj o) Ht). reflexivity.
Qed.

(** ** [getHeaders] in closed form *)

Lemma getHeaders_array (h : heap) (l : loc) (elems : list value) (ps : props) :
  h !! l = Some (Arr elems ps) ->
  getHeaders (VRef l) h
  = Ok (VRef (length h))
       (h ++ [Obj (merge_into (h ++ [Obj []]) (length h) elems [])]).
Proof.
  intros Hl. unfold getHeaders, bind, Array_isArray, is_array. rewrite Hl.
  unfold new_object, forEach, items_in.
  rewrite (lookup_app_l_Some _ _ _ _ Hl).
  rewrite (for_each_Object_assign (length h) elems []).
  - unfold ret. f_equal.
    rewrite insert_app_r_alt by reflexivity.
    rewrite Nat.sub_diag. reflexivity.
  - rewrite lookup_app_r by reflexivity. rewrite Nat.sub_diag. reflexivity.
Qed.

Lemma getHeaders_not_array (h : heap) (origin : value) :
  is_array h origin = false -> getHeaders origin h = Ok origin h.
Proof.
  intros H. unfold getHeaders, bind, Array_isArray. rewrite H. reflexivity.
Qed.

(** [getHeaders] always returns; what it returns is not an array; and it
    leaves every cell that was there as it was. *)
Lemma getHeaders_total (h : heap) (origin : value) :
  exists v h', getHeaders origin h = Ok v h'
               /\ is_array h' v = false
               /\ (exists extra, h' = h ++ extra).
Proof.
  destruct (is_array h origin) eqn:E.
  - unfold is_array in E. destruct origin as [| | | | |l]; try discriminate.
    destruct (h !! l) as [[|elems ps]|] eqn:Hl; try discriminate.
    eexists _, _. split; [apply (getHeaders_array _ _ _ _ Hl)|]. split.
    + unfold is_array. rewrite lookup_app_r by reflexivity.
      rewrite Nat.sub_diag. reflexivity.
    + eexists. reflexivity.
  - exists origin, h. split; [apply getHeaders_not_array, E|]. split; [exact E|].
    exists []. symmetry. apply app_nil_r.
Qed.

Lemma obj_assign_assign {A} (a b o : list (string * A)) :
  obj_assign b (obj_assign a o) = obj_assign (a ++ b) o.
Proof. symmetry. apply obj_assign_app. Qed.

Lemma merge_into_single_keys (h ext : heap) (elems : list value) (entries o : props) :
  single_key_mappings h elems entries ->
  obj_get proto_key o = None ->
  merge_into (h ++ ext) (length h) elems o = obj_assign (settable entries) o.
Proof.
  unfold single_key_mappings, merge_into.
  intros HF. revert o.
  induction HF as [|e kv elems entries (li & -> & Hli) _ IH]; intros o Ho;
    cbn [fold_left]; [reflexivity|].
  assert (li < length h) as Hlt by (eapply lookup_lt_Some, Hli).
  unfold entries_in at 2.
  rewrite list_lookup_insert_ne by lia.
  rewrite (lookup_app_l_Some _ _ _ _ Hli).
  rewrite obj_put_all_settable by exact Ho.
  rewrite IH by (apply obj_get_proto_assign_settable, Ho).
  rewrite obj_assign_assign, <- settable_app. reflexivity.
Qed.

Lemma keys_replace {A} k (x : A) o :
  map fst (obj_replace k x o) = map fst o.
Proof.
  induction o as [|[k' x'] o IH]; simpl; [reflexivity|].
  destruct (k =? k') eqn:E; simpl.
  - apply String.eqb_eq in E. subst. reflexivity.
  - f_equal. exact IH.
Qed.

Lemma keys_insert_index {A} n k (x : A) o :
  map fst (obj_insert_index n k x o) ≡ₚ k :: map fst o.
Proof.
  induction o as [|[k' x'] o IH]; simpl; [reflexivity|].
  destruct (array_index k') as [n'|]; [destruct (n <? n')%N|]; simpl;
    try reflexivity.
  rewrite IH. apply Permutation_swap.
Qed.

Lemma obj_get_None_keys {A} k (o : list (string * A)) :
  obj_get k o = None -> k ∉ map fst o.
Proof.
  induction o as [|[k' x'] o IH]; simpl; intros H.
  - apply not_elem_of_nil.
  - destruct (k =? k') eqn:E; [discriminate|].
    apply String.eqb_neq in E. rewrite not_elem_of_cons. auto.
Qed.

Lemma NoDup_keys_set {A} k (x : A) o :
  NoDup (map fst o) -> NoDup (map fst (obj_set k x o)).
Proof.
  intros Hnd. unfold obj_set, has_key.
  destruct (obj_get k o) eqn:G.
  - rewrite keys_replace. exact Hnd.
  - pose proof (obj_get_None_keys _ _ G) as Hnotin.
    unfold obj_add. destruct (array_index k).
    + rewrite keys_insert_index. apply NoDup_cons; auto.
    + rewrite map_app. simpl.
      rewrite <- Permutation_cons_append. apply NoDup_cons; auto.
Qed.

Lemma NoDup_keys_assign {A} (src o : list (string * A)) :
  NoDup (map fst o) -> NoDup (map fst (obj_assign src o)).
Proof.
  unfold obj_assign. revert o.
  induction src as [|[k x] src IH]; intros o Ho; simpl; [exact Ho|].
  apply IH, NoDup_keys_set, Ho.
Qed.

(** ** Header normalization *)

(** C1, as stated, fails for an entry named [__proto__]:
    [Object.assign] writes it with an ordinary assignment, which
    reaches the setter of [Object.prototype] and creates no property.
    The sequence [[{"__proto__": "x"}, {"a": "1"}]] is folded into
    [{"a": "1"}]. *)
Lemma getHeaders_leaves_out_proto_entry :
  getHeaders (VRef 0)
    [Arr [VRef 1; VRef 2] []; Obj [("__proto__", VStr "x")]; Obj [("a", VStr "1")]]
  = Ok (VRef 3)
      [Arr [VRef 1; VRef 2] []; Obj [("__proto__", VStr "x")]; Obj [("a", VStr "1")];
       Obj [("a", VStr "1")]]
  /\ last_binding "__proto__" [("__proto__", VStr "x"); ("a", VStr "1")]
     = Some (VStr "x")
  /\ ~ merges_every_entry getHeaders.
Proof.
  split; [reflexivity|]. split; [reflexivity|].
  intros Hclaim.
  destruct (Hclaim
              [Arr [VRef 1; VRef 2] []; Obj [("__proto__", VStr "x")];
               Obj [("a", VStr "1")]]
              0 [VRef 1; VRef 2] [] [("__proto__", VStr "x"); ("a", VStr "1")])
    as (o & Hrun & Hkeys).
  - reflexivity.
  - repeat constructor; eexists; split; reflexivity.
  - assert (o = [("a", VStr "1")]) as -> by (cbv in Hrun; congruence).
    specialize (Hkeys "__proto__"). discriminate Hkeys.
Qed.

(** C1, amended.  [getHeaders] applied to a sequence of single-key
    mappings returns one fresh mapping and touches no existing object.
    Every key other than [__proto__] occurs in it once and holds the
    value of its last occurrence in the sequence: the left-to-right
    merge.  An entry named [__proto__] adds no key: when no such entry
    replaces the prototype, the result is exactly the merge of the
    other entries.  When no entry is named [__proto__] it is the merge
    of all the entries.  Applied to anything that is not a sequence
    [getHeaders] returns its argument unchanged.  It always returns,
    and normalizing its result again returns that result unchanged. *)
Theorem getHeaders_fold_passthrough_idempotent :
  (forall (h : heap) (l : loc) (elems : list value) (ps entries : props),
      h !! l = Some (Arr elems ps) ->
      single_key_mappings h elems entries ->
      exists o : props,
        getHeaders (VRef l) h = Ok (VRef (length h)) (h ++ [Obj o])
        /\ (forall k, k <> proto_key -> obj_get k o = last_binding k entries)
        /\ NoDup (map fst o)
        /\ (prototype_kept entries ->
            o = literal (settable entries) /\ obj_get proto_key o = None)
        /\ (Forall (fun kv => kv.1 <> proto_key) entries -> o = literal entries))
  /\ (forall (h : heap) (origin : value),
        is_array h origin = false -> getHeaders origin h = Ok origin h)
  /\ (forall (h : heap) (origin : value),
        exists v h', getHeaders origin h = Ok v h' /\ getHeaders v h' = Ok v h').
Proof.
  split; [|split].
  - intros h l elems ps entries Hl Hs. exists (literal (settable entries)).
    split; [|split; [|split; [|split]]].
    + rewrite (getHeaders_array _ _ _ _ Hl).
      rewrite (merge_into_single_keys _ _ _ _ _ Hs) by reflexivity. reflexivity.
    + intros k Hk. unfold literal, last_binding.
      rewrite obj_get_assign, obj_get_rev_settable by exact Hk.
      destruct (obj_get k (rev entries)); reflexivity.
    + apply NoDup_keys_assign. constructor.
    + intros _. split; [reflexivity|].
      apply obj_get_proto_assign_settable. reflexivity.
    + intros Hkeys. rewrite (settable_keys _ Hkeys). reflexivity.
  - apply getHeaders_not_array.
  - intros h origin.
    destruct (getHeaders_total h origin) as (v & h' & Hrun & Hna & _).
    exists v, h'. split; [exact Hrun | apply getHeaders_not_array, Hna].
Qed.

Lemma getHeaders_fold_passthrough_idempotent_witness :
  getHeaders (VRef 0)
    [Arr [VRef 1; VRef 2; VRef 3] [];
     Obj [("A", VStr "1")]; Obj [("__proto__", VStr "x")]; Obj [("A", VStr "2")]]
  = Ok (VRef 4)
      [Arr [VRef 1; VRef 2; VRef 3] [];
       Obj [("A", VStr "1")]; Obj [("__proto__", VStr "x")]; Obj [("A", VStr "2")];
       Obj [("A", VStr "2")]]
  /\ getHeaders (VRef 1) [Arr [] []; Obj [("A", VStr "1")]]
     = Ok (VRef 1) [Arr [] []; Obj [("A", VStr "1")]].
Proof.
  destruct getHeaders_fold_passthrough_idempotent as (Hfold & Hpass & _).
  split.
  - destruct (Hfold
                [Arr [VRef 1; VRef 2; VRef 3] [];
                 Obj [("A", VStr "1")]; Obj [("__proto__", VStr "x")];
                 Obj [("A", VStr "2")]]
                0 [VRef 1; VRef 2; VRef 3] []
                [("A", VStr "1"); ("__proto__", VStr "x"); ("A", VStr "2")])
      as (o & Hrun & _ & _ & Hexact & _).
    + reflexivity.
    + repeat constructor; eexists; split; reflexivity.
    + destruct Hexact as [-> _]; [repeat constructor|]. exact Hrun.
  - apply Hpass. reflexivity.
Defined.

(** The two examples of the specification. *)
Example getHeaders_distinct_keys :
  getHeaders (VRef 0)
    [Arr [VRef 1; VRef 2] []; Obj [("A", VStr "1")]; Obj [("B", VStr "2")]]
  = Ok (VRef 3)
      [Arr [VRef 1; VRef 2] []; Obj [("A", VStr "1")]; Obj [("B", VStr "2")];
       Obj [("A", VStr "1"); ("B", VStr "2")]].
Proof. reflexivity. Qed.

Example getHeaders_last_occurrence_wins :
  getHeaders (VRef 0)
    [Arr [VRef 1; VRef 2] []; Obj [("A", VStr "1")]; Obj [("A", VStr "2")]]
  = Ok (VRef 3)
      [Arr [VRef 1; VRef 2] []; Obj [("A", VStr "1")]; Obj [("A", VStr "2")];
       Obj [("A", VStr "2")]].
Proof. reflexivity. Qed.

(** ** [httpRequest]: what is forwarded to the host *)

Lemma rest_lacks_headers_data (opt : props) (k : string) :
  k = "headers" \/ k = "data" ->
  obj_get k (spread (obj_remove "data" (obj_remove "headers" opt))) = None.
Proof.
  intros Hk. rewrite obj_get_spread. destruct Hk as [-> | ->].
  - rewrite obj_get_remove_ne by discriminate.
    rewrite obj_get_remove_eq. reflexivity.
  - rewrite obj_get_remove_eq. reflexivity.
Qed.

Lemma rest_keeps (opt : props) (k : string) :
  k <> "headers" -> k <> "data" ->
  obj_get k (spread (obj_remove "data" (obj_remove "headers" opt)))
  = Data <$> obj_get k opt.
Proof.
  intros H1 H2. rewrite obj_get_spread.
  rewrite !obj_get_remove_ne by congruence. reflexivity.
Qed.

Lemma httpRequest_call_headers (headers data : value) (opt : props) :
  forwards (httpRequest_call headers data (obj_remove "data" (obj_remove "headers" opt)))
           "headers" headers.
Proof.
  unfold forwards, httpRequest_call, literal. cbn [cfg].
  rewrite obj_assign_app, obj_get_assign_absent; [reflexivity|].
  apply rest_lacks_headers_data. auto.
Qed.

Lemma httpRequest_call_data (headers data : value) (opt : props) :
  forwards (httpRequest_call headers data (obj_remove "data" (obj_remove "headers" opt)))
           "data" data.
Proof.
  unfold forwards, httpRequest_call, literal. cbn [cfg].
  rewrite obj_assign_app, obj_get_assign_absent; [reflexivity|].
  apply rest_lacks_headers_data. auto.
Qed.

Lemma JSON_stringify_heap_after (v : value) (h : heap) :
  heap_after (JSON_stringify v h) = h.
Proof.
  unfold JSON_stringify.
  destruct (SerializeJSONProperty (length h) h v); reflexivity.
Qed.

(** [JSON.stringify] returns a text or [undefined], or throws a
    [TypeError]; it never changes the heap. *)
Lemma JSON_stringify_cases (v : value) (h : heap) :
  (exists d, JSON_stringify v h = Ok d h) \/ JSON_stringify v h = Throw TypeError h.
Proof.
  unfold JSON_stringify.
  destruct (SerializeJSONProperty (length h) h v); eauto.
Qed.

(** The call when the entry at ["Content-Type"] is falsy. *)
Lemma httpRequest_falsy (opt : props) (h : heap) (l : loc) (c : cell) (h0 : heap) :
  headers_at opt h l h0 ->
  h0 !! l = Some c ->
  truthy (get "Content-Type" (named_props c)) = false ->
  httpRequest opt h
  = match JSON_stringify (get "data" opt) (with_json_content_type l c h0) with
    | Ok d h1 =>
        Ok (httpRequest_call (VRef l) d (obj_remove "data" (obj_remove "headers" opt))) h1
    | Throw e h1 => Throw e h1
    end.
Proof.
  intros Hat Hl Hct. unfold httpRequest, bind.
  assert (match get "headers" opt with
          | VUndefined => new_object
          | v => ret v
          end h = Ok (VRef l) h0) as ->.
  { destruct Hat as [[-> ->] | (-> & -> & ->)]; reflexivity. }
  unfold get_prop. rewrite Hl, Hct. cbn [negb].
  rewrite (set_prop_ref l c _ _ _ Hl) by discriminate.
  fold (with_json_content_type l c h0).
  destruct (JSON_stringify (get "data" opt) (with_json_content_type l c h0));
    reflexivity.
Qed.

(** The call when the entry at ["Content-Type"] is truthy. *)
Lemma httpRequest_truthy (opt : props) (h : heap) (l : loc) (c : cell) :
  get "headers" opt = VRef l ->
  h !! l = Some c ->
  truthy (get "Content-Type" (named_props c)) = true ->
  httpRequest opt h
  = Ok (httpRequest_call (VRef l) (get "data" opt)
          (obj_remove "data" (obj_remove "headers" opt))) h.
Proof.
  intros Hhd Hl Hct. unfold httpRequest, bind. rewrite Hhd.
  unfold ret at 1. unfold get_prop. rewrite Hl, Hct. reflexivity.
Qed.

Lemma with_json_content_type_lookup (l : loc) (c : cell) (h0 : heap) :
  h0 !! l = Some c ->
  get_prop (VRef l) "Content-Type" (with_json_content_type l c h0)
  = Ok (VStr "application/json") (with_json_content_type l c h0).
Proof.
  intros Hl. unfold get_prop, with_json_content_type.
  rewrite list_lookup_insert_eq by (eapply lookup_lt_Some, Hl).
  unfold get. destruct c; cbn [named_props with_named_props];
    rewrite obj_get_set_eq; reflexivity.
Qed.

(** C2, as stated, fails for a content type that the test of
    [httpRequest] does not see.  With the headers
    [{"content-type": "text/plain"}], or [{"Content-Type": ""}], the
    caller has named a content type that is not JSON, and yet the data
    [{x: 1}] reaches the host as the text [{"x":1}] and the headers
    gain ["Content-Type": "application/json"]. *)
Lemma httpRequest_encodes_despite_content_type :
  httpRequest [("url", VStr "/upload"); ("headers", VRef 1); ("data", VRef 0)]
    [Obj [("x", VNum 1)]; Obj [("content-type", VStr "text/plain")]]
  = Ok (httpRequest_call (VRef 1) (VStr json_x1) [("url", VStr "/upload")])
       [Obj [("x", VNum 1)];
        Obj [("content-type", VStr "text/plain");
             ("Content-Type", VStr "application/json")]]
  /\ httpRequest [("url", VStr "/upload"); ("headers", VRef 1); ("data", VRef 0)]
       [Obj [("x", VNum 1)]; Obj [("Content-Type", VStr EmptyString)]]
     = Ok (httpRequest_call (VRef 1) (VStr json_x1) [("url", VStr "/upload")])
          [Obj [("x", VNum 1)]; Obj [("Content-Type", VStr "application/json")]]
  /\ ~ forwards_data_untouched httpRequest.
Proof.
  split; [reflexivity|]. split; [reflexivity|].
  intros Hclaim.
  assert (forwards (httpRequest_call (VRef 1) (VStr json_x1) [("url", VStr "/upload")])
            "data" (VRef 0)) as Hdata.
  { apply (Hclaim [("url", VStr "/upload"); ("headers", VRef 1); ("data", VRef 0)]
                  [Obj [("x", VNum 1)]; Obj [("content-type", VStr "text/plain")]]
                  1 [("content-type", VStr "text/plain")] _
                  [Obj [("x", VNum 1)];
                   Obj [("content-type", VStr "text/plain");
                        ("Content-Type", VStr "application/json")]]).
    - reflexivity.
    - reflexivity.
    - exists "content-type", "text/plain".
      split; [reflexivity|]. split; [reflexivity | discriminate].
    - reflexivity. }
  unfold forwards in Hdata. vm_compute in Hdata. discriminate Hdata.
Qed.

(** C2, amended.  When the headers mapping of a call (the caller's, or
    the empty default) has no truthy entry at the exact key
    ["Content-Type"], that is no entry there or an empty one, the
    configuration forwarded to the host carries that very headers
    object, now with ["Content-Type"] set to ["application/json"], and
    its [data] field is [JSON.stringify] of the caller's data; the call
    is issued whenever that encoding exists, and [httpRequest] throws
    exactly when [JSON.stringify] does.  When the caller's headers
    carry at that key a truthy value other than ["application/json"],
    the call is issued with the caller's data as it is and the heap is
    untouched.  An entry under any other key is not looked at. *)
Theorem httpRequest_default_header_injection :
  (forall (opt : props) (h : heap) (l : loc) (c : cell) (h0 : heap),
      headers_at opt h l h0 ->
      h0 !! l = Some c ->
      truthy (get "Content-Type" (named_props c)) = false ->
      let h1 := with_json_content_type l c h0 in
      (forall d, JSON_stringify (get "data" opt) h1 = Ok d h1 ->
                 exists rq, httpRequest opt h = Ok rq h1
                            /\ forwards rq "headers" (VRef l)
                            /\ get_prop (VRef l) "Content-Type" h1
                               = Ok (VStr "application/json") h1
                            /\ forwards rq "data" d)
      /\ (forall e, JSON_stringify (get "data" opt) h1 = Throw e h1 ->
                    httpRequest opt h = Throw e h1)
      /\ ((exists d, JSON_stringify (get "data" opt) h1 = Ok d h1)
          \/ JSON_stringify (get "data" opt) h1 = Throw TypeError h1))
  /\ (forall (opt : props) (h : heap) (l : loc) (c : cell) (ct : value),
        get "headers" opt = VRef l ->
        h !! l = Some c ->
        obj_get "Content-Type" (named_props c) = Some ct ->
        truthy ct = true ->
        ct <> VStr "application/json" ->
        exists rq, httpRequest opt h = Ok rq h
                   /\ forwards rq "headers" (VRef l)
                   /\ forwards rq "data" (get "data" opt)).
Proof.
  split.
  - intros opt h l c h0 Hat Hl Hct h1.
    pose proof (httpRequest_falsy opt h l c h0 Hat Hl Hct) as Hrun.
    fold h1 in Hrun. split; [|split].
    + intros d Hd. rewrite Hd in Hrun. eexists. split; [exact Hrun|].
      split; [apply httpRequest_call_headers|].
      split; [apply with_json_content_type_lookup, Hl|].
      apply httpRequest_call_data.
    + intros e He. rewrite He in Hrun. exact Hrun.
    + apply JSON_stringify_cases.
  - intros opt h l c ct Hhd Hl Hsome Htr _.
    assert (truthy (get "Content-Type" (named_props c)) = true) as Hct
      by (unfold get; rewrite Hsome; exact Htr).
    eexists. split; [apply (httpRequest_truthy opt h l c Hhd Hl Hct)|].
    split; [apply httpRequest_call_headers | apply httpRequest_call_data].
Qed.

(** ** Host callbacks *)

Lemma literal_spread_then (opt : props) (tail : config) (k : string) (f : field) :
  obj_get k (rev tail) = Some f ->
  obj_get k (literal (spread opt ++ tail)) = Some f.
Proof.
  intros H. unfold literal. rewrite obj_assign_app, obj_get_assign, H. reflexivity.
Qed.

Lemma httpRequest_inv (opt : props) (h : heap) (rq : request) (h1 : heap) :
  httpRequest opt h = Ok rq h1 ->
  exists headers data,
    rq = httpRequest_call headers data (obj_remove "data" (obj_remove "headers" opt)).
Proof.
  unfold httpRequest, bind, ret. intros H.
  repeat case_match; simplify_eq; eauto.
Qed.

Lemma httpRequest_call_callback (pre tail : config) (opt : props) (k : string) (f : field) :
  obj_get k opt = None ->
  k <> "headers" -> k <> "data" ->
  obj_get k (rev tail) = Some f ->
  obj_get k (literal ((pre ++ tail)
                      ++ spread (obj_remove "data" (obj_remove "headers" opt))))
  = Some f.
Proof.
  intros Hopt H1 H2 Htail. unfold literal.
  rewrite obj_assign_app, obj_get_assign_absent.
  - rewrite obj_assign_app, obj_get_assign, Htail. reflexivity.
  - rewrite rest_keeps by assumption. rewrite Hopt. reflexivity.
Qed.

Lemma httpRequest_call_fail (headers data : value) (opt : props) :
  obj_get "fail" opt = None ->
  obj_get "fail"
    (cfg (httpRequest_call headers data (obj_remove "data" (obj_remove "headers" opt))))
  = Some (Fn reject).
Proof.
  intros Hopt. unfold httpRequest_call. cbn [cfg].
  match goal with
  | |- obj_get _ (literal ((?a :: ?b :: ?tail) ++ _)) = _ =>
      change (a :: b :: tail) with ([a; b] ++ tail)
  end.
  apply httpRequest_call_callback; try assumption; try discriminate; reflexivity.
Qed.

Lemma httpRequest_success_run (headers data : value) (opt : props)
    (h : heap) (r : loc) (c : cell) (p : promise) :
  obj_get "success" opt = None ->
  h !! r = Some c ->
  exists normalized extra,
    getHeaders (get "headers" (named_props c)) h = Ok normalized (h ++ extra)
    /\ host_invokes
         (httpRequest_call headers data (obj_remove "data" (obj_remove "headers" opt)))
         "success" (VRef r) p h
       = Ok (settle (Resolve (VRef r)) p)
            (<[r := with_named_props c (obj_set "headers" normalized (named_props c))]>
               (h ++ extra)).
Proof.
  intros Hopt Hr.
  destruct (getHeaders_total h (get "headers" (named_props c)))
    as (normalized & h' & Hrun & _ & extra & ->).
  exists normalized, extra. split; [exact Hrun|].
  unfold host_invokes, httpRequest_call. cbn [cfg].
  match goal with
  | |- context [literal ((?a :: ?b :: ?tail) ++ ?rest)] =>
      change (a :: b :: tail) with ([a; b] ++ tail);
      rewrite (httpRequest_call_callback [a; b] tail opt "success" (snd (hd a tail)))
  end; try assumption; try discriminate; try reflexivity.
  cbn [snd hd]. unfold bind at 1 2. unfold get_prop at 1. rewrite Hr.
  unfold bind at 1. rewrite Hrun.
  unfold bind at 1.
  rewrite (set_prop_ref r c _ _ _ (lookup_app_l_Some _ _ _ _ Hr)) by discriminate.
  reflexivity.
Qed.

(** C3.  When the host invokes the success callback of an
    [httpRequest] call with a response object [res], the promise is
    fulfilled with [res] itself, and the heap is exactly the one
    [getHeaders] leaves when run on the headers the host supplied, with
    the one field [res.headers] now holding what [getHeaders] returned:
    every other field of [res] is as the host left it and no other
    object has changed.  When the host's headers are a sequence of
    single-key mappings, [res.headers] is one new object, the
    left-to-right merge of their entries (an entry named [__proto__]
    adds no key); when they are not a sequence, they stay where they
    were and nothing is allocated. *)
Theorem httpRequest_resolves_with_normalized_response :
  forall (opt : props) (h : heap) (rq : request) (h1 : heap),
    obj_get "success" opt = None ->
    httpRequest opt h = Ok rq h1 ->
    forall (h2 : heap) (r : loc) (c : cell),
      h2 !! r = Some c ->
      exists (normalized : value) (extra : heap),
        let h3 := h2 ++ extra in
        let c' := with_named_props c (obj_set "headers" normalized (named_props c)) in
        let h4 := <[r := c']> h3 in
        getHeaders (get "headers" (named_props c)) h2 = Ok normalized h3
        /\ host_invokes rq "success" (VRef r) Pending h2 = Ok (Fulfilled (VRef r)) h4
        /\ h4 !! r = Some c'
        /\ obj_get "headers" (named_props c') = Some normalized
        /\ (forall k, k <> "headers" ->
                      obj_get k (named_props c') = obj_get k (named_props c))
        /\ (forall i, i <> r -> h4 !! i = h3 !! i)
        /\ (forall i, i < length h2 -> h3 !! i = h2 !! i)
        /\ (forall (l : loc) (elems : list value) (ps entries : props),
              get "headers" (named_props c) = VRef l ->
              h2 !! l = Some (Arr elems ps) ->
              single_key_mappings h2 elems entries ->
              exists o : props,
                normalized = VRef (length h2)
                /\ extra = [Obj o]
                /\ h4 !! length h2 = Some (Obj o)
                /\ (forall k, k <> proto_key -> obj_get k o = last_binding k entries)
                /\ (prototype_kept entries -> o = literal (settable entries)))
        /\ (is_array h2 (get "headers" (named_props c)) = false ->
              normalized = get "headers" (named_props c) /\ extra = []).
Proof.
  intros opt h rq h1 Hopt Hrun h2 r c Hr.
  destruct (httpRequest_inv _ _ _ _ Hrun) as (headers & data & ->).
  destruct (httpRequest_success_run headers data opt h2 r c Pending Hopt Hr)
    as (normalized & extra & Hnorm & Hcb).
  exists normalized, extra. cbv zeta.
  split; [exact Hnorm|]. split; [exact Hcb|].
  assert (r < length h2) as Hrlt by (eapply lookup_lt_Some, Hr).
  assert (r < length (h2 ++ extra)) as Hlt by (rewrite length_app; lia).
  split; [apply list_lookup_insert_eq, Hlt|].
  split; [rewrite named_props_with; apply obj_get_set_eq|].
  split; [intros k Hk; rewrite named_props_with; apply obj_get_set_ne; congruence|].
  split; [intros i Hi; apply list_lookup_insert_ne; congruence|].
  split; [intros i Hi; apply lookup_app_l, Hi|].
  split.
  - intros l elems ps entries Hhv Hl Hs. rewrite Hhv in Hnorm.
    rewrite (getHeaders_array _ _ _ _ Hl) in Hnorm.
    rewrite (merge_into_single_keys _ _ _ _ _ Hs) in Hnorm by reflexivity.
    injection Hnorm as <- Hext. apply app_inv_head in Hext. subst extra.
    exists (literal (settable entries)).
    split; [reflexivity|]. split; [reflexivity|]. split; [|split].
    + rewrite list_lookup_insert_ne by lia.
      rewrite lookup_app_r by reflexivity. rewrite Nat.sub_diag. reflexivity.
    + intros k Hk. unfold literal, last_binding.
      rewrite obj_get_assign, obj_get_rev_settable by exact Hk.
      destruct (obj_get k (rev entries)); reflexivity.
    + reflexivity.
  - intros Hna. rewrite (getHeaders_not_array _ _ Hna) in Hnorm.
    injection Hnorm as <- Hext. split; [reflexivity|].
    rewrite <- (app_nil_r h2) in Hext at 1. apply app_inv_head in Hext.
    symmetry. exact Hext.
Qed.

(** A settled promise stays as it is, whatever is invoked later. *)
Lemma settle_settled (a : action) (p : promise) :
  p <> Pending -> settle a p = p.
Proof. destruct p; [congruence | reflexivity | reflexivity]. Qed.

Lemma run_fail_callback (rq : request) (R : value) (h : heap) :
  obj_get "fail" (cfg rq) = Some (Fn reject) ->
  host_invokes rq "fail" R Pending h = Ok (Rejected R) h.
Proof. intros H. unfold host_invokes. rewrite H. reflexivity. Qed.

Ltac fail_is_reject :=
  first [ reflexivity
        | apply literal_spread_then; reflexivity ].

(** C4.  Whatever promise-returning adapter issued the call, when the
    host invokes its fail callback with a reason [R] the promise is
    rejected with [R] itself, and the adapter touches nothing on the
    way: the heap is as the host left it. *)
Theorem host_failure_rejects_with_reason_unchanged :
  forall (c : call) (h : heap) (rq : request) (h1 : heap),
    callbacks_not_shadowed c ->
    issue c h = Ok rq h1 ->
    forall (R : value) (h2 : heap),
      host_invokes rq "fail" R Pending h2 = Ok (Rejected R) h2.
Proof.
  intros c h rq h1 Hty Hrun R h2. apply run_fail_callback.
  destruct c; cbn [issue] in Hrun;
    try (unfold ret in Hrun; injection Hrun as <- _; cbn [cfg]; fail_is_reject).
  destruct (httpRequest_inv _ _ _ _ Hrun) as (headers & data & ->).
  apply httpRequest_call_fail, Hty.
Qed.

Lemma host_failure_rejects_with_reason_unchanged_witness :
  host_invokes
    (httpRequest_call (VRef 0) VUndefined
       [("url", VStr "https://example.org"); ("method", VStr "GET")])
    "fail" (VStr "offline") Pending [Obj [("Content-Type", VStr "application/json")]]
  = Ok (Rejected (VStr "offline")) [Obj [("Content-Type", VStr "application/json")]].
Proof.
  apply (host_failure_rejects_with_reason_unchanged
           (Call_httpRequest [("url", VStr "https://example.org"); ("method", VStr "GET")])
           [] _ [Obj [("Content-Type", VStr "application/json")]]).
  - split; reflexivity.
  - reflexivity.
Defined.

(** ** Projections of the success payload *)

Lemma run_projection (rq : request) (field_name : string) (res data : value) (h : heap) :
  obj_get "success" (cfg rq)
  = Some (Fn (fun res => x <- get_prop res field_name ;; resolve x)) ->
  get_prop res field_name h = Ok data h ->
  host_invokes rq "success" res Pending h = Ok (Fulfilled data) h.
Proof.
  intros Hcb Hget. unfold host_invokes. rewrite Hcb.
  unfold bind at 1 2. rewrite Hget. reflexivity.
Qed.

Lemma get_prop_object (h : heap) (r : loc) (ps : props) (k : string) (v : value) :
  h !! r = Some (Obj ps) ->
  obj_get k ps = Some v ->
  get_prop (VRef r) k h = Ok v h.
Proof.
  intros Hr Hk. unfold get_prop, get. rewrite Hr. cbn [named_props].
  rewrite Hk. reflexivity.
Qed.

Lemma showActionSheet_resolves_with_index : resolves_with_index showActionSheet.
Proof.
  intros opt h r ps i Hr Hi.
  apply (run_projection _ "index").
  - apply literal_spread_then. reflexivity.
  - apply (get_prop_object _ _ _ _ _ Hr Hi).
Qed.

Lemma earlier_showActionSheet_resolves_with_payload
    (opt : props) (res : value) (h : heap) :
  host_invokes (Earlier.showActionSheet opt) "success" res Pending h
  = Ok (Fulfilled res) h.
Proof.
  unfold host_invokes, Earlier.showActionSheet. cbn [cfg].
  rewrite (literal_spread_then opt _ "success" (Fn (fun res => resolve res)))
    by reflexivity.
  reflexivity.
Qed.

(** [showActionSheet] as the latest snapshot has it (and as
    [src/unnamed/part_001] and the second document of
    [src/unnamed/part_002] have it): a payload reporting [-1] fulfils
    the promise with [-1]; nothing is turned into a rejection. *)
Lemma showActionSheet_cancel_resolves :
  forall (opt : props) (h : heap) (r : loc) (ps : props),
    h !! r = Some (Obj ps) ->
    obj_get "index" ps = Some (VNum (-1)) ->
    host_invokes (showActionSheet opt) "success" (VRef r) Pending h
    = Ok (Fulfilled (VNum (-1))) h.
Proof.
  intros opt h r ps Hr Hi.
  apply (showActionSheet_resolves_with_index opt h r ps (-1)%Z Hr Hi).
Qed.

(** C5 on [src/src/index.ts].  There the success callback passes the
    payload on whole: when the host reports [{index: -1}] for an action
    sheet, the promise is fulfilled with that object and not with the
    number [-1], so this snapshot does not resolve with the index. *)
Theorem showActionSheet_index_ts_resolves_with_payload :
  host_invokes (Earlier.showActionSheet [("items", VRef 0)]) "success" (VRef 1) Pending
    [Arr [VStr "Edit"; VStr "Delete"] []; Obj [("index", VNum (-1))]]
  = Ok (Fulfilled (VRef 1))
       [Arr [VStr "Edit"; VStr "Delete"] []; Obj [("index", VNum (-1))]]
  /\ host_invokes (Earlier.showActionSheet [("items", VRef 0)]) "success" (VRef 1) Pending
       [Arr [VStr "Edit"; VStr "Delete"] []; Obj [("index", VNum (-1))]]
     <> Ok (Fulfilled (VNum (-1)))
          [Arr [VStr "Edit"; VStr "Delete"] []; Obj [("index", VNum (-1))]]
  /\ ~ resolves_with_index Earlier.showActionSheet.
Proof.
  split; [reflexivity|]. split; [discriminate|].
  intros Hclaim.
  specialize (Hclaim [] [Obj [("index", VNum (-1))]] 0 [("index", VNum (-1))] (-1)%Z
                eq_refl eq_refl).
  rewrite earlier_showActionSheet_resolves_with_payload in Hclaim. discriminate.
Qed.

(** C7.  When the host invokes the success callback of [getStorage]
    with a payload [res], the promise is fulfilled with [res.data] and
    the heap is untouched.  Whatever the host put in that field is what
    the caller gets: [null], an empty string, or [undefined] when the
    field is missing. *)
Theorem getStorage_resolves_with_data :
  (forall (key res data : value) (h : heap),
      get_prop res "data" h = Ok data h ->
      host_invokes (getStorage key) "success" res Pending h = Ok (Fulfilled data) h)
  /\ (forall (key : value) (h : heap) (r : loc) (ps : props) (marker : value),
        h !! r = Some (Obj ps) ->
        obj_get "data" ps = Some marker ->
        host_invokes (getStorage key) "success" (VRef r) Pending h
        = Ok (Fulfilled marker) h)
  /\ (forall (key : value) (h : heap) (r : loc) (ps : props),
        h !! r = Some (Obj ps) ->
        obj_get "data" ps = None ->
        host_invokes (getStorage key) "success" (VRef r) Pending h
        = Ok (Fulfilled VUndefined) h).
Proof.
  assert (forall (key res data : value) (h : heap),
             get_prop res "data" h = Ok data h ->
             host_invokes (getStorage key) "success" res Pending h
             = Ok (Fulfilled data) h) as Hmain.
  { intros key res data h Hget.
    apply (run_projection _ "data"); [reflexivity | exact Hget]. }
  split; [exact Hmain|]. split.
  - intros key h r ps marker Hr Hd. apply Hmain.
    apply (get_prop_object _ _ _ _ _ Hr Hd).
  - intros key h r ps Hr Hd. apply Hmain.
    unfold get_prop, get. rewrite Hr. cbn [named_props]. rewrite Hd. reflexivity.
Qed.

Lemma getStorage_resolves_with_data_witness :
  host_invokes (getStorage (VStr "token")) "success" (VRef 0) Pending
    [Obj [("data", VNull)]]
  = Ok (Fulfilled VNull) [Obj [("data", VNull)]].
Proof.
  destruct getStorage_resolves_with_data as (_ & Hmarker & _).
  apply (Hmarker _ _ 0 [("data", VNull)]); reflexivity.
Defined.

(** C8.  When the host invokes the success callback of
    [createGroupChat] with a payload [res], the promise is fulfilled
    with [res.id] as the host gave it and the heap is untouched.  When
    that field is a list of identifiers, the caller gets that very
    list, all its elements in place. *)
Theorem createGroupChat_resolves_with_id :
  (forall (users res id : value) (h : heap),
      get_prop res "id" h = Ok id h ->
      host_invokes (createGroupChat users) "success" res Pending h = Ok (Fulfilled id) h)
  /\ (forall (users : value) (h : heap) (r a : loc) (ps nps : props) (ids : list value),
        h !! r = Some (Obj ps) ->
        obj_get "id" ps = Some (VRef a) ->
        h !! a = Some (Arr ids nps) ->
        exists h',
          host_invokes (createGroupChat users) "success" (VRef r) Pending h
          = Ok (Fulfilled (VRef a)) h'
          /\ h' !! a = Some (Arr ids nps)).
Proof.
  assert (forall (users res id : value) (h : heap),
             get_prop res "id" h = Ok id h ->
             host_invokes (createGroupChat users) "success" res Pending h
             = Ok (Fulfilled id) h) as Hmain.
  { intros users res id h Hget.
    apply (run_projection _ "id"); [reflexivity | exact Hget]. }
  split; [exact Hmain|].
  intros users h r a ps nps ids Hr Hid Ha. exists h. split; [|exact Ha].
  apply Hmain. apply (get_prop_object _ _ _ _ _ Hr Hid).
Qed.

Lemma createGroupChat_resolves_with_id_witness :
  exists h',
    host_invokes (createGroupChat (VRef 0)) "success" (VRef 1) Pending
      [Arr [VStr "u1"; VStr "u2"] []; Obj [("id", VRef 2)]; Arr [VStr "chat42"] []]
    = Ok (Fulfilled (VRef 2)) h'
    /\ h' !! 2 = Some (Arr [VStr "chat42"] []).
Proof.
  destruct createGroupChat_resolves_with_id as (_ & Hlist).
  apply (Hlist _ _ 1 2 [("id", VRef 2)] [] [VStr "chat42"]); reflexivity.
Defined.

(** ** Defaults for omitted options *)

Lemma spread_then_absent (opt : props) (tail : config) (k : string) :
  obj_get k opt = None ->
  obj_get k (rev tail) = None ->
  obj_get k (literal (spread opt ++ tail)) = None.
Proof.
  intros Hopt Htail. unfold literal.
  rewrite obj_assign_app, obj_get_assign, Htail.
  rewrite obj_get_assign_absent; [reflexivity|].
  rewrite obj_get_spread, Hopt. reflexivity.
Qed.

Lemma showToast_defaults : substitutes_toast_defaults (fun opt => showToast (Some opt)).
Proof.
  intros opt Hty Hdu. unfold forwards, showToast. cbv beta zeta.
  change (default [] (Some opt)) with opt. unfold get.
  rewrite Hty, Hdu. split; reflexivity.
Qed.

Lemma showLoading_default : substitutes_loading_default (fun opt => showLoading (Some opt)).
Proof.
  intros opt Hde. unfold forwards, showLoading. cbv beta zeta.
  change (default [] (Some opt)) with opt. unfold get.
  rewrite Hde. reflexivity.
Qed.

Lemma earlier_showToast_adds_nothing (opt : props) (k : string) :
  k <> "success" -> k <> "fail" ->
  obj_get k opt = None ->
  obj_get k (cfg (Earlier.showToast opt)) = None.
Proof.
  intros Hs Hf Hopt. apply spread_then_absent; [exact Hopt|].
  simpl. apply String.eqb_neq in Hs, Hf. rewrite Hs, Hf. reflexivity.
Qed.

Lemma earlier_showLoading_adds_nothing (opt : props) (k : string) :
  k <> "success" -> k <> "fail" ->
  obj_get k opt = None ->
  obj_get k (cfg (Earlier.showLoading opt)) = None.
Proof.
  intros Hs Hf Hopt. apply spread_then_absent; [exact Hopt|].
  simpl. apply String.eqb_neq in Hs, Hf. rewrite Hs, Hf. reflexivity.
Qed.

(** C6, as stated, fails on [src/src/index.ts]: there [showToast]
    spreads its argument and substitutes nothing.  Called with only a
    [content], it forwards a configuration with no [type] and no
    [duration] at all. *)
Lemma showToast_index_ts_substitutes_nothing :
  map fst (cfg (Earlier.showToast [("content", VStr "Saved")]))
  = ["content"; "success"; "fail"]
  /\ ~ substitutes_toast_defaults Earlier.showToast.
Proof.
  split; [reflexivity|].
  intros Hclaim.
  destruct (Hclaim [("content", VStr "Saved")] eq_refl eq_refl) as [Hty _].
  discriminate Hty.
Qed.

(** C6, amended.  In the latest snapshot (the first document of
    [src/unnamed/part_002]) a call of [showToast] with no [type] and no
    [duration], or with no argument at all, forwards [type = "none"]
    and [duration = 2000], and a call of [showLoading] with no [delay],
    or with no argument, forwards [delay = 0].  In [src/src/index.ts]
    (and the other earlier snapshots) both adapters forward the
    caller's fields and add none: a field the caller omits is absent
    from the configuration. *)
Theorem toast_and_loading_defaults :
  substitutes_toast_defaults (fun opt => showToast (Some opt))
  /\ (forwards (showToast None) "type" (VStr "none")
      /\ forwards (showToast None) "duration" (VNum 2000))
  /\ substitutes_loading_default (fun opt => showLoading (Some opt))
  /\ forwards (showLoading None) "delay" (VNum 0)
  /\ (forall (opt : props) (k : string),
        k <> "success" -> k <> "fail" ->
        obj_get k opt = None ->
        obj_get k (cfg (Earlier.showToast opt)) = None
        /\ obj_get k (cfg (Earlier.showLoading opt)) = None).
Proof.
  split; [exact showToast_defaults|].
  split; [split; reflexivity|].
  split; [exact showLoading_default|].
  split; [reflexivity|].
  intros opt k Hs Hf Hopt. split.
  - apply earlier_showToast_adds_nothing; assumption.
  - apply earlier_showLoading_adds_nothing; assumption.
Qed.

Lemma toast_and_loading_defaults_witness :
  (forwards (showToast (Some [("content", VStr "Saved")])) "type" (VStr "none")
   /\ forwards (showToast (Some [("content", VStr "Saved")])) "duration" (VNum 2000))
  /\ forwards (showLoading (Some [("content", VStr "Loading")])) "delay" (VNum 0)
  /\ obj_get "type" (cfg (Earlier.showToast [("content", VStr "Saved")])) = None.
Proof.
  destruct toast_and_loading_defaults as (Htoast & _ & Hloading & _ & Hindex).
  split; [apply (Htoast [("content", VStr "Saved")]); reflexivity|].
  split; [apply (Hloading [("content", VStr "Loading")]); reflexivity|].
  apply (Hindex [("content", VStr "Saved")] "type"); [discriminate | discriminate | reflexivity].
Defined.

(** ** [httpRequest]: witnesses and the caller's headers object *)

Lemma httpRequest_default_header_injection_witness :
  (exists rq,
      httpRequest [("url", VStr "/api"); ("method", VStr "POST"); ("data", VRef 0)]
        [Obj [("x", VNum 1)]]
      = Ok rq [Obj [("x", VNum 1)]; Obj [("Content-Type", VStr "application/json")]]
      /\ forwards rq "headers" (VRef 1)
      /\ get_prop (VRef 1) "Content-Type"
           [Obj [("x", VNum 1)]; Obj [("Content-Type", VStr "application/json")]]
         = Ok (VStr "application/json")
              [Obj [("x", VNum 1)]; Obj [("Content-Type", VStr "application/json")]]
      /\ forwards rq "data" (VStr json_x1))
  /\ (exists rq,
        httpRequest [("url", VStr "/api"); ("method", VStr "POST");
                     ("headers", VRef 1); ("data", VRef 0)]
          [Obj [("x", VNum 1)]; Obj [("Content-Type", VStr "text/plain")]]
        = Ok rq [Obj [("x", VNum 1)]; Obj [("Content-Type", VStr "text/plain")]]
        /\ forwards rq "headers" (VRef 1)
        /\ forwards rq "data" (VRef 0)).
Proof.
  destruct httpRequest_default_header_injection as [Hinject Hkeep]. split.
  - refine (proj1 (Hinject
                     [("url", VStr "/api"); ("method", VStr "POST"); ("data", VRef 0)]
                     [Obj [("x", VNum 1)]] 1 (Obj [])
                     [Obj [("x", VNum 1)]; Obj []] _ _ _) (VStr json_x1) _).
    + right. repeat split; reflexivity.
    + reflexivity.
    + reflexivity.
    + reflexivity.
  - refine (Hkeep [("url", VStr "/api"); ("method", VStr "POST");
                   ("headers", VRef 1); ("data", VRef 0)]
                  [Obj [("x", VNum 1)]; Obj [("Content-Type", VStr "text/plain")]]
                  1 (Obj [("Content-Type", VStr "text/plain")]) (VStr "text/plain")
                  _ _ _ _ _); try reflexivity.
    discriminate.
Defined.

Lemma httpRequest_resolves_with_normalized_response_witness :
  host_invokes
    (httpRequest_call (VRef 0) VUndefined [("url", VStr "/api"); ("method", VStr "GET")])
    "success" (VRef 4) Pending
    [Obj [("Content-Type", VStr "application/json")];
     Arr [VRef 2; VRef 3] [];
     Obj [("A", VStr "1")];
     Obj [("A", VStr "2")];
     Obj [("data", VStr "ok"); ("status", VNum 200); ("headers", VRef 1)]]
  = Ok (Fulfilled (VRef 4))
       [Obj [("Content-Type", VStr "application/json")];
        Arr [VRef 2; VRef 3] [];
        Obj [("A", VStr "1")];
        Obj [("A", VStr "2")];
        Obj [("data", VStr "ok"); ("status", VNum 200); ("headers", VRef 5)];
        Obj [("A", VStr "2")]].
Proof.
  destruct (httpRequest_resolves_with_normalized_response
              [("url", VStr "/api"); ("method", VStr "GET")] []
              (httpRequest_call (VRef 0) VUndefined
                 [("url", VStr "/api"); ("method", VStr "GET")])
              [Obj [("Content-Type", VStr "application/json")]]
              eq_refl eq_refl
              [Obj [("Content-Type", VStr "application/json")];
               Arr [VRef 2; VRef 3] [];
               Obj [("A", VStr "1")];
               Obj [("A", VStr "2")];
               Obj [("data", VStr "ok"); ("status", VNum 200); ("headers", VRef 1)]]
              4
              (Obj [("data", VStr "ok"); ("status", VNum 200); ("headers", VRef 1)])
              eq_refl)
    as (normalized & extra & _ & Hcb & _ & _ & _ & _ & _ & Hseq & _).
  destruct (Hseq 1 [VRef 2; VRef 3] [] [("A", VStr "1"); ("A", VStr "2")])
    as (o & -> & -> & _ & _ & Hexact).
  - reflexivity.
  - reflexivity.
  - repeat constructor; eexists; split; reflexivity.
  - rewrite Hexact in Hcb by repeat constructor. exact Hcb.
Defined.

(** The response of the witness, run: the sequence of header mappings
    at cell 1 is merged into a fresh object, and the response now
    points to it. *)
Example httpRequest_success_normalizes :
  host_invokes
    (httpRequest_call (VRef 0) VUndefined [("url", VStr "/api"); ("method", VStr "GET")])
    "success" (VRef 4) Pending
    [Obj [("Content-Type", VStr "application/json")];
     Arr [VRef 2; VRef 3] [];
     Obj [("A", VStr "1")];
     Obj [("A", VStr "2")];
     Obj [("data", VStr "ok"); ("status", VNum 200); ("headers", VRef 1)]]
  = Ok (Fulfilled (VRef 4))
       [Obj [("Content-Type", VStr "application/json")];
        Arr [VRef 2; VRef 3] [];
        Obj [("A", VStr "1")];
        Obj [("A", VStr "2")];
        Obj [("data", VStr "ok"); ("status", VNum 200); ("headers", VRef 5)];
        Obj [("A", VStr "2")]].
Proof. reflexivity. Qed.

Lemma with_json_content_type_cell (l : loc) (c : cell) (h : heap) :
  h !! l = Some c ->
  with_json_content_type l c h !! l
  = Some (with_named_props c
            (obj_set "Content-Type" (VStr "application/json") (named_props c))).
Proof.
  intros Hl. unfold with_json_content_type.
  apply list_lookup_insert_eq. eapply lookup_lt_Some, Hl.
Qed.

(** C9.  When the caller's headers object has no truthy
    ["Content-Type"] entry, [httpRequest] writes
    ["Content-Type": "application/json"] into that very object: after
    the call, whether it returned or [JSON.stringify] threw, the
    caller's object has changed, its other entries and every other
    object have not, and the host is handed the same reference, not a
    copy.  When the entry is truthy the heap is left as it was. *)
Theorem httpRequest_mutates_caller_headers :
  (forall (opt : props) (h : heap) (l : loc) (c : cell),
      get "headers" opt = VRef l ->
      h !! l = Some c ->
      truthy (get "Content-Type" (named_props c)) = false ->
      exists c',
        heap_after (httpRequest opt h) !! l = Some c'
        /\ obj_get "Content-Type" (named_props c') = Some (VStr "application/json")
        /\ (forall k, k <> "Content-Type" ->
                      obj_get k (named_props c') = obj_get k (named_props c))
        /\ c' <> c
        /\ (forall i, i <> l -> heap_after (httpRequest opt h) !! i = h !! i)
        /\ (forall rq h', httpRequest opt h = Ok rq h' -> forwards rq "headers" (VRef l)))
  /\ (forall (opt : props) (h : heap) (l : loc) (c : cell),
        get "headers" opt = VRef l ->
        h !! l = Some c ->
        truthy (get "Content-Type" (named_props c)) = true ->
        exists rq, httpRequest opt h = Ok rq h /\ forwards rq "headers" (VRef l)).
Proof.
  split.
  - intros opt h l c Hhd Hl Hct.
    pose proof (httpRequest_falsy opt h l c h (or_introl (conj Hhd eq_refl)) Hl Hct)
      as Hrun.
    assert (heap_after (httpRequest opt h) = with_json_content_type l c h) as Hafter.
    { rewrite Hrun.
      pose proof (JSON_stringify_heap_after (get "data" opt) (with_json_content_type l c h)).
      destruct (JSON_stringify (get "data" opt) (with_json_content_type l c h));
        assumption. }
    rewrite Hafter. eexists. split; [apply with_json_content_type_cell, Hl|].
    rewrite named_props_with. split; [apply obj_get_set_eq|].
    split; [intros k Hk; apply obj_get_set_ne; congruence|].
    split; [|split].
    + intros Heq. rewrite <- Heq in Hct at 1.
      rewrite named_props_with in Hct. unfold get in Hct.
      rewrite obj_get_set_eq in Hct. discriminate.
    + intros i Hi. unfold with_json_content_type.
      apply list_lookup_insert_ne. congruence.
    + intros rq h' Hok. rewrite Hrun in Hok.
      destruct (JSON_stringify (get "data" opt) (with_json_content_type l c h))
        as [d h2|]; [|discriminate].
      assert (rq = httpRequest_call (VRef l) d
                     (obj_remove "data" (obj_remove "headers" opt))) as ->
        by congruence.
      apply httpRequest_call_headers.
  - intros opt h l c Hhd Hl Hct.
    eexists. split; [apply (httpRequest_truthy opt h l c Hhd Hl Hct)|].
    apply httpRequest_call_headers.
Qed.

Lemma httpRequest_mutates_caller_headers_witness :
  (exists c',
      heap_after (httpRequest [("url", VStr "/api"); ("method", VStr "GET");
                               ("headers", VRef 0)]
                    [Obj [("Accept", VStr "text/html")]]) !! 0 = Some c'
      /\ obj_get "Content-Type" (named_props c') = Some (VStr "application/json")
      /\ c' <> Obj [("Accept", VStr "text/html")])
  /\ (exists rq,
        httpRequest [("url", VStr "/api"); ("method", VStr "GET"); ("headers", VRef 0)]
          [Obj [("Content-Type", VStr "text/plain")]]
        = Ok rq [Obj [("Content-Type", VStr "text/plain")]]
        /\ forwards rq "headers" (VRef 0)).
Proof.
  destruct httpRequest_mutates_caller_headers as [Hmut Hkeep]. split.
  - destruct (Hmut [("url", VStr "/api"); ("method", VStr "GET"); ("headers", VRef 0)]
                   [Obj [("Accept", VStr "text/html")]] 0
                   (Obj [("Accept", VStr "text/html")]) eq_refl eq_refl eq_refl)
      as (c' & Hcell & Hct & _ & Hneq & _).
    exists c'. repeat split; assumption.
  - apply (Hkeep [("url", VStr "/api"); ("method", VStr "GET"); ("headers", VRef 0)]
                 [Obj [("Content-Type", VStr "text/plain")]] 0
                 (Obj [("Content-Type", VStr "text/plain")])); reflexivity.
Defined.

(** The caller's object of the witness, before and after the call. *)
Example httpRequest_writes_into_caller_object :
  heap_after (httpRequest [("url", VStr "/api"); ("method", VStr "GET");
                           ("headers", VRef 0)]
                [Obj [("Accept", VStr "text/html")]])
  = [Obj [("Accept", VStr "text/html"); ("Content-Type", VStr "application/json")]].
Proof. reflexivity. Qed.

(** C10.  The branch [httpRequest] takes is decided by the truthiness
    of the entry at the literal key ["Content-Type"] and by nothing
    else.  So when the caller's headers name a content type under
    another key, such as ["content-type"], or give the empty string,
    the adapter behaves as for no content type: it sets
    ["Content-Type"] to ["application/json"] on the caller's object and
    forwards [JSON.stringify] of the data. *)
Theorem content_type_test_is_literal_key_truthiness :
  (forall (opt : props) (h : heap) (l : loc) (c : cell),
      get "headers" opt = VRef l ->
      h !! l = Some c ->
      httpRequest opt h
      = if truthy (get "Content-Type" (named_props c))
        then Ok (httpRequest_call (VRef l) (get "data" opt)
                   (obj_remove "data" (obj_remove "headers" opt))) h
        else match JSON_stringify (get "data" opt) (with_json_content_type l c h) with
             | Ok d h1 =>
                 Ok (httpRequest_call (VRef l) d
                       (obj_remove "data" (obj_remove "headers" opt))) h1
             | Throw e h1 => Throw e h1
             end)
  /\ (forall (opt : props) (h : heap) (l : loc) (c : cell),
        get "headers" opt = VRef l ->
        h !! l = Some c ->
        (exists k ct, k <> "Content-Type"
                      /\ obj_get k (named_props c) = Some ct
                      /\ obj_get "Content-Type" (named_props c) = None)
        \/ obj_get "Content-Type" (named_props c) = Some (VStr EmptyString) ->
        let h1 := with_json_content_type l c h in
        forall d, JSON_stringify (get "data" opt) h1 = Ok d h1 ->
                  exists rq, httpRequest opt h = Ok rq h1
                             /\ forwards rq "headers" (VRef l)
                             /\ get_prop (VRef l) "Content-Type" h1
                                = Ok (VStr "application/json") h1
                             /\ forwards rq "data" d).
Proof.
  split.
  - intros opt h l c Hhd Hl.
    destruct (truthy (get "Content-Type" (named_props c))) eqn:Hct.
    + apply (httpRequest_truthy opt h l c Hhd Hl Hct).
    + apply (httpRequest_falsy opt h l c h (or_introl (conj Hhd eq_refl)) Hl Hct).
  - intros opt h l c Hhd Hl Hcase h1 d Hd.
    assert (truthy (get "Content-Type" (named_props c)) = false) as Hct.
    { unfold get. destruct Hcase as [(k & ct & _ & _ & ->) | ->]; reflexivity. }
    pose proof (httpRequest_falsy opt h l c h (or_introl (conj Hhd eq_refl)) Hl Hct)
      as Hrun.
    fold h1 in Hrun. rewrite Hd in Hrun.
    eexists. split; [exact Hrun|].
    split; [apply httpRequest_call_headers|].
    split; [apply with_json_content_type_lookup, Hl|].
    apply httpRequest_call_data.
Qed.

Lemma content_type_test_is_literal_key_truthiness_witness :
  (exists rq,
      httpRequest [("url", VStr "/api"); ("method", VStr "POST");
                   ("headers", VRef 1); ("data", VRef 0)]
        [Obj [("x", VNum 1)]; Obj [("content-type", VStr "text/plain")]]
      = Ok rq [Obj [("x", VNum 1)];
               Obj [("content-type", VStr "text/plain");
                    ("Content-Type", VStr "application/json")]]
      /\ forwards rq "data" (VStr json_x1))
  /\ (exists rq,
        httpRequest [("url", VStr "/api"); ("method", VStr "POST");
                     ("headers", VRef 1); ("data", VRef 0)]
          [Obj [("x", VNum 1)]; Obj [("Content-Type", VStr EmptyString)]]
        = Ok rq [Obj [("x", VNum 1)]; Obj [("Content-Type", VStr "application/json")]]
        /\ forwards rq "data" (VStr json_x1)).
Proof.
  destruct content_type_test_is_literal_key_truthiness as [_ Hcase]. split.
  - assert ((exists k ct, k <> "Content-Type"
                          /\ obj_get k [("content-type", VStr "text/plain")] = Some ct
                          /\ obj_get "Content-Type" [("content-type", VStr "text/plain")]
                             = None)
            \/ obj_get "Content-Type" [("content-type", VStr "text/plain")]
               = Some (VStr EmptyString)) as Hlower.
    { left. exists "content-type", (VStr "text/plain").
      split; [discriminate | split; reflexivity]. }
    destruct (Hcase [("url", VStr "/api"); ("method", VStr "POST");
                     ("headers", VRef 1); ("data", VRef 0)]
                    [Obj [("x", VNum 1)]; Obj [("content-type", VStr "text/plain")]]
                    1 (Obj [("content-type", VStr "text/plain")]) eq_refl eq_refl
                    Hlower (VStr json_x1) eq_refl)
      as (rq & Hrun & _ & _ & Hdata).
    exists rq. split; assumption.
  - destruct (Hcase [("url", VStr "/api"); ("method", VStr "POST");
                     ("headers", VRef 1); ("data", VRef 0)]
                    [Obj [("x", VNum 1)]; Obj [("Content-Type", VStr EmptyString)]]
                    1 (Obj [("Content-Type", VStr EmptyString)]) eq_refl eq_refl
                    (or_intror eq_refl)
                    (VStr json_x1) eq_refl)
      as (rq & Hrun & _ & _ & Hdata).
    exists rq. split; assumption.
Defined.

(** * Further properties of the adapters *)

(** ** The success callback of every adapter *)

Lemma run_success_verbatim (rq : request) (res : value) (p : promise) (h : heap) :
  obj_get "success" (cfg rq) = Some (Fn resolve) ->
  host_invokes rq "success" res p h = Ok (settle (Resolve res) p) h.
Proof. intros H. unfold host_invokes. rewrite H. reflexivity. Qed.

Ltac success_is_resolve :=
  first [ reflexivity
        | apply literal_spread_then; reflexivity ].

(** Every adapter without a projection hands the caller the host's
    payload as it is: when the host invokes the success callback with
    [res], whatever [res] is, the promise is fulfilled with [res] and
    the heap is as the host left it. *)
Theorem success_payload_passes_verbatim :
  forall (c : call) (h : heap) (rq : request) (h1 : heap),
    resolves_verbatim c = true ->
    issue c h = Ok rq h1 ->
    forall (res : value) (h2 : heap),
      host_invokes rq "success" res Pending h2 = Ok (Fulfilled res) h2.
Proof.
  intros c h rq h1 Hv Hrun res h2.
  apply (run_success_verbatim rq res Pending h2).
  destruct c; try discriminate Hv; cbn [issue] in Hrun;
    unfold ret in Hrun; injection Hrun as <- _; cbn [cfg]; success_is_resolve.
Qed.

Lemma success_payload_passes_verbatim_witness :
  host_invokes (uploadFile [("url", VStr "/up"); ("success", VNum 1)]) "success"
    VUndefined Pending []
  = Ok (Fulfilled VUndefined) [].
Proof.
  apply (success_payload_passes_verbatim
           (Call_uploadFile [("url", VStr "/up"); ("success", VNum 1)]) [] _ []);
    reflexivity.
Defined.

Lemma projected_callback (c : call) (field_name : string)
    (h : heap) (rq : request) (h1 : heap) :
  projected_field c = Some field_name ->
  issue c h = Ok rq h1 ->
  obj_get "success" (cfg rq)
  = Some (Fn (fun res => x <- get_prop res field_name ;; resolve x)).
Proof.
  intros Hf Hrun.
  destruct c; try discriminate Hf; injection Hf as <-; cbn [issue] in Hrun;
    unfold ret in Hrun; injection Hrun as <- _; cbn [cfg];
    first [ reflexivity | apply literal_spread_then; reflexivity ].
Qed.

(** An adapter with a projection resolves with the one field it
    extracts, whatever else the payload carries: [getAuthCode] with
    [res.authCode], [datePicker] with [res.date] (and the action sheet,
    the group chat and the storage getter with theirs).  A payload that
    is a primitive has no such field and resolves with [undefined]. *)
Theorem success_payload_is_projected :
  forall (c : call) (field_name : string) (h : heap) (rq : request) (h1 : heap),
    projected_field c = Some field_name ->
    issue c h = Ok rq h1 ->
    (forall (res x : value) (h2 : heap),
        get_prop res field_name h2 = Ok x h2 ->
        host_invokes rq "success" res Pending h2 = Ok (Fulfilled x) h2)
    /\ (forall (r : loc) (c' : cell) (h2 : heap),
          h2 !! r = Some c' ->
          host_invokes rq "success" (VRef r) Pending h2
          = Ok (Fulfilled (get field_name (named_props c'))) h2)
    /\ (forall (res : value) (h2 : heap),
          (exists b, res = VBool b) \/ (exists n, res = VNum n) \/ (exists s, res = VStr s) ->
          host_invokes rq "success" res Pending h2 = Ok (Fulfilled VUndefined) h2).
Proof.
  intros c f h rq h1 Hf Hrun.
  pose proof (projected_callback c f h rq h1 Hf Hrun) as Hcb.
  assert (forall (res x : value) (h2 : heap),
             get_prop res f h2 = Ok x h2 ->
             host_invokes rq "success" res Pending h2 = Ok (Fulfilled x) h2) as Hmain.
  { intros res x h2 Hget. apply (run_projection rq f res x h2 Hcb Hget). }
  split; [exact Hmain|]. split.
  - intros r c' h2 Hr. apply Hmain. unfold get_prop. rewrite Hr. reflexivity.
  - intros res h2 [[b ->] | [[n ->] | [s ->]]]; apply Hmain; reflexivity.
Qed.

Lemma success_payload_is_projected_witness :
  host_invokes getAuthCode "success" (VRef 0) Pending
    [Obj [("authCode", VStr "c0de"); ("expires", VNum 300)]]
  = Ok (Fulfilled (VStr "c0de")) [Obj [("authCode", VStr "c0de"); ("expires", VNum 300)]].
Proof.
  destruct (success_payload_is_projected Call_getAuthCode "authCode" [] getAuthCode []
              eq_refl eq_refl) as (_ & Hobj & _).
  apply (Hobj 0 (Obj [("authCode", VStr "c0de"); ("expires", VNum 300)])).
  reflexivity.
Defined.

Lemma httpRequest_call_success (headers data : value) (opt : props) :
  obj_get "success" opt = None ->
  obj_get "success"
    (cfg (httpRequest_call headers data (obj_remove "data" (obj_remove "headers" opt))))
  = Some (Fn (fun res =>
                raw <- get_prop res "headers" ;;
                normalized <- getHeaders raw ;;
                set_prop res "headers" normalized ;;
                resolve res)).
Proof.
  intros Hopt. unfold httpRequest_call. cbn [cfg].
  match goal with
  | |- obj_get _ (literal ((?a :: ?b :: ?tail) ++ _)) = _ =>
      change (a :: b :: tail) with ([a; b] ++ tail)
  end.
  apply httpRequest_call_callback; try assumption; try discriminate; reflexivity.
Qed.

(** An adapter that reads the payload cannot take an empty one: when
    the host invokes its success callback with [undefined] or [null],
    the callback throws a [TypeError] into the host, the promise is
    left as it was (not fulfilled, not rejected) and the heap is
    untouched. *)
Theorem empty_payload_throws_and_does_not_settle :
  forall (c : call) (h : heap) (rq : request) (h1 : heap),
    reads_payload c = true ->
    callbacks_not_shadowed c ->
    issue c h = Ok rq h1 ->
    forall (res : value) (p : promise) (h2 : heap),
      res = VUndefined \/ res = VNull ->
      host_invokes rq "success" res p h2 = Throw TypeError h2.
Proof.
  intros c h rq h1 Hreads Hty Hrun res p h2 Hres.
  destruct (projected_field c) as [f|] eqn:Hf.
  - pose proof (projected_callback c f h rq h1 Hf Hrun) as Hcb.
    unfold host_invokes. rewrite Hcb. destruct Hres as [-> | ->]; reflexivity.
  - destruct c; try discriminate Hf; try discriminate Hreads.
    cbn [issue] in Hrun.
    destruct (httpRequest_inv _ _ _ _ Hrun) as (headers & data & ->).
    unfold host_invokes. rewrite (httpRequest_call_success headers data opt (proj1 Hty)).
    destruct Hres as [-> | ->]; reflexivity.
Qed.

Lemma empty_payload_throws_and_does_not_settle_witness :
  host_invokes (getStorage (VStr "token")) "success" VUndefined Pending []
  = Throw TypeError [].
Proof.
  apply (empty_payload_throws_and_does_not_settle
           (Call_getStorage (VStr "token")) [] _ []);
    [reflexivity | exact I | reflexivity | left; reflexivity].
Defined.

(** ** What reaches the host *)

Lemma obj_get_notin_None {A} (k : string) (o : list (string * A)) :
  k ∉ map fst o -> obj_get k o = None.
Proof.
  induction o as [|[k' x'] o IH]; simpl; intros H; [reflexivity|].
  rewrite not_elem_of_cons in H. destruct H as [Hne Hnotin].
  apply String.eqb_neq in Hne. rewrite Hne. apply IH, Hnotin.
Qed.

(** In an object, whose keys are distinct, the last binding of a key is
    its only binding. *)
Lemma obj_get_rev_NoDup {A} (k : string) (o : list (string * A)) :
  NoDup (map fst o) -> obj_get k (rev o) = obj_get k o.
Proof.
  induction o as [|[k' x'] o IH]; simpl; intros Hnd; [reflexivity|].
  apply NoDup_cons in Hnd as [Hnotin Hnd].
  rewrite obj_get_app. simpl. destruct (k =? k') eqn:E.
  - apply String.eqb_eq in E. subst k'.
    rewrite (obj_get_rev_None _ _ (obj_get_notin_None _ _ Hnotin)). reflexivity.
  - rewrite (IH Hnd). destruct (obj_get k o); reflexivity.
Qed.

Lemma obj_get_rev_spread (k : string) (o : props) :
  obj_get k (rev (spread o)) = Data <$> obj_get k (rev o).
Proof. unfold spread. rewrite <- map_rev. apply obj_get_spread. Qed.

Lemma literal_spread_forward (opt : props) (tail : config) (k : string) :
  NoDup (map fst opt) ->
  obj_get k (rev tail) = None ->
  obj_get k (literal (spread opt ++ tail)) = Data <$> obj_get k opt.
Proof.
  intros Hnd Htail. unfold literal.
  rewrite obj_assign_app, obj_get_assign, Htail, obj_get_assign.
  rewrite obj_get_rev_spread, (obj_get_rev_NoDup _ _ Hnd).
  destruct (obj_get k opt); reflexivity.
Qed.

Lemma spread_cfg_facts (rq : request) (opt : props) (f : callback) :
  cfg rq = literal (spread opt ++ [("success", Fn f); ("fail", Fn reject)]) ->
  NoDup (map fst opt) ->
  (forall k, k <> "success" -> k <> "fail" ->
             obj_get k (cfg rq) = Data <$> obj_get k opt)
  /\ (forall v, ~ forwards rq "success" v)
  /\ (forall v, ~ forwards rq "fail" v).
Proof.
  intros Hcfg Hnd. unfold forwards. rewrite Hcfg. split; [|split].
  - intros k Hs Hf. apply literal_spread_forward; [exact Hnd|].
    simpl. apply String.eqb_neq in Hs, Hf. rewrite Hs, Hf. reflexivity.
  - intros v. rewrite (literal_spread_then opt _ "success" (Fn f)) by reflexivity.
    discriminate.
  - intros v. rewrite (literal_spread_then opt _ "fail" (Fn reject)) by reflexivity.
    discriminate.
Qed.

(** An adapter that spreads its argument forwards every field the
    caller gave, unchanged, and nothing the caller did not give; only
    the names [success] and [fail] are taken: whatever the caller put
    there is replaced by the adapter's callbacks and never reaches the
    host. *)
Theorem spread_adapters_forward_the_argument :
  forall adapter : props -> request,
    In adapter spread_adapters ->
    forall opt : props,
      NoDup (map fst opt) ->
      (forall k, k <> "success" -> k <> "fail" ->
                 obj_get k (cfg (adapter opt)) = Data <$> obj_get k opt)
      /\ (forall v, ~ forwards (adapter opt) "success" v)
      /\ (forall v, ~ forwards (adapter opt) "fail" v).
Proof.
  intros adapter Hin opt Hnd. simpl in Hin.
  repeat (destruct Hin as [<- | Hin];
          [eapply spread_cfg_facts; [reflexivity | exact Hnd] |]).
  contradiction.
Qed.

Lemma spread_adapters_forward_the_argument_witness :
  obj_get "cancelButtonText"
    (cfg (confirm [("title", VStr "Quit?"); ("cancelButtonText", VStr "No");
                   ("fail", VNum 7)]))
  = Some (Data (VStr "No"))
  /\ ~ forwards (confirm [("title", VStr "Quit?"); ("cancelButtonText", VStr "No");
                          ("fail", VNum 7)]) "fail" (VNum 7).
Proof.
  destruct (spread_adapters_forward_the_argument confirm (or_introl eq_refl)
              [("title", VStr "Quit?"); ("cancelButtonText", VStr "No"); ("fail", VNum 7)])
    as (Hfw & _ & Hfail).
  - repeat constructor; rewrite ?elem_of_cons, ?elem_of_nil; intros H;
      repeat destruct H as [H|H]; discriminate || contradiction.
  - split; [apply Hfw; discriminate | apply Hfail].
Defined.

(** An adapter that destructures its argument builds a configuration
    of fixed shape: the keys are the same whatever the caller passes, a
    field the adapter does not name never reaches the host, and a named
    field without a default carries the caller's value, [undefined]
    when the caller left it out. *)
Theorem destructuring_adapters_have_fixed_shape :
  forall (adapter : props -> request) (plain keys : list string),
    In (adapter, plain, keys) destructuring_adapters ->
    forall opt : props,
      map fst (cfg (adapter opt)) = keys
      /\ (forall k, In k plain -> forwards (adapter opt) k (get k opt))
      /\ (forall k, ~ In k keys -> obj_get k (cfg (adapter opt)) = None).
Proof.
  intros adapter plain keys Hin opt.
  assert (map fst (cfg (adapter opt)) = keys
          /\ (forall k, In k plain -> forwards (adapter opt) k (get k opt)))
    as [Hkeys Hplain].
  { simpl in Hin.
    repeat (destruct Hin as [[= <- <- <-] | Hin];
            [split; [reflexivity|];
             intros k Hk; simpl in Hk;
             repeat (destruct Hk as [<- | Hk]; [reflexivity|]); contradiction |]).
    contradiction. }
  split; [exact Hkeys|]. split; [exact Hplain|].
  intros k Hk. apply obj_get_notin_None. rewrite Hkeys.
  rewrite list_elem_of_In. exact Hk.
Qed.

Lemma destructuring_adapters_have_fixed_shape_witness :
  forwards (alert [("title", VStr "Hi"); ("content", VStr "there"); ("extra", VNum 1)])
    "buttonText" VUndefined
  /\ obj_get "extra"
       (cfg (alert [("title", VStr "Hi"); ("content", VStr "there"); ("extra", VNum 1)]))
     = None.
Proof.
  destruct (destructuring_adapters_have_fixed_shape alert
              ["title"; "content"; "buttonText"]
              ["title"; "content"; "buttonText"; "success"; "fail"]
              (or_introl eq_refl)
              [("title", VStr "Hi"); ("content", VStr "there"); ("extra", VNum 1)])
    as (_ & Hplain & Hdrop).
  split.
  - apply (Hplain "buttonText"). simpl. tauto.
  - apply Hdrop. simpl. intros H.
    repeat destruct H as [H|H]; discriminate || contradiction.
Defined.

Lemma defaulted_options_forward (adapter : props -> request) (k : string) (d : value) :
  In (adapter, k, d) defaulted_options ->
  forall opt : props, forwards (adapter opt) k (dflt d (get k opt)).
Proof.
  intros Hin opt. simpl in Hin.
  repeat (destruct Hin as [[= <- <- <-] | Hin]; [reflexivity|]).
  contradiction.
Qed.

(** Every documented default: when the caller leaves the option out,
    or passes [undefined] for it, the host receives the default; and
    the adapters whose whole argument is optional send all their
    defaults when called with no argument. *)
Theorem omitted_options_get_their_defaults :
  (forall (adapter : props -> request) (k : string) (d : value),
      In (adapter, k, d) defaulted_options ->
      forall opt : props,
        get k opt = VUndefined -> forwards (adapter opt) k d)
  /\ forwards (scan VUndefined) "type" (VStr "qr")
  /\ forwards (navigateBack VUndefined) "delta" (VNum 1)
  /\ forwards (setNavigationBar None) "reset" (VBool false)
  /\ forwards (getLocation None) "cacheTimeout" (VNum 30)
  /\ (forwards (createAnimation None) "duration" (VNum 400)
      /\ forwards (createAnimation None) "timeFunction" (VStr "linear")
      /\ forwards (createAnimation None) "delay" (VNum 0)
      /\ forwards (createAnimation None) "transformOrigin" (VStr "50")).
Proof.
  split.
  - intros adapter k d Hin opt Hget.
    pose proof (defaulted_options_forward adapter k d Hin opt) as Hfw.
    rewrite Hget in Hfw. exact Hfw.
  - repeat split; reflexivity.
Qed.

Lemma omitted_options_get_their_defaults_witness :
  forwards (openLocation [("longitude", VStr "120.1"); ("latitude", VStr "30.2");
                          ("name", VStr "HQ"); ("address", VStr "1 Main St")])
    "scale" (VNum 15).
Proof.
  destruct omitted_options_get_their_defaults as (Htable & _).
  apply (Htable openLocation "scale" (VNum 15)); [|reflexivity].
  simpl. tauto.
Defined.

(** A default never overrides the caller: any value the caller passes
    for a defaulted option other than [undefined] is forwarded as it is,
    the falsy ones included ([null], [false], [0], the empty string). *)
Theorem explicit_options_override_defaults :
  (forall (adapter : props -> request) (k : string) (d : value),
      In (adapter, k, d) defaulted_options ->
      forall opt : props,
        get k opt <> VUndefined -> forwards (adapter opt) k (get k opt))
  /\ (forall type : value,
        type <> VUndefined -> forwards (scan type) "type" type)
  /\ (forall delta : value,
        delta <> VUndefined -> forwards (navigateBack delta) "delta" delta).
Proof.
  split; [|split].
  - intros adapter k d Hin opt Hget.
    pose proof (defaulted_options_forward adapter k d Hin opt) as Hfw.
    destruct (get k opt); [congruence | exact Hfw ..].
  - intros type Hne. destruct type; [congruence | reflexivity ..].
  - intros delta Hne. destruct delta; [congruence | reflexivity ..].
Qed.

Lemma explicit_options_override_defaults_witness :
  forwards (showToast (Some [("content", VStr "Saved"); ("duration", VNum 0)]))
    "duration" (VNum 0)
  /\ forwards (choosePhonebook [("title", VStr "Pick"); ("multiple", VBool false)])
       "multiple" (VBool false).
Proof.
  destruct explicit_options_override_defaults as (Htable & _).
  split.
  - apply (Htable (fun opt => showToast (Some opt)) "duration" (VNum 2000));
      [simpl; tauto | discriminate].
  - apply (Htable choosePhonebook "multiple" (VBool true));
      [simpl; tauto | discriminate].
Defined.

(** ** [httpRequest]: the rest of the argument, and bad arguments *)

Lemma NoDup_keys_remove {A} (k : string) (o : list (string * A)) :
  NoDup (map fst o) -> NoDup (map fst (obj_remove k o)).
Proof.
  induction o as [|[k' x'] o IH]; simpl; intros Hnd; [exact Hnd|].
  apply NoDup_cons in Hnd as [Hnotin Hnd].
  destruct (k =? k'); [apply IH, Hnd|]. simpl. apply NoDup_cons. split; [|apply IH, Hnd].
  intros Hin. apply Hnotin. clear -Hin.
  induction o as [|[k2 x2] o IH]; simpl in *; [exact Hin|].
  destruct (k =? k2); simpl in *.
  - apply elem_of_cons. right. apply IH, Hin.
  - apply elem_of_cons in Hin as [-> | Hin]; apply elem_of_cons;
      [left; reflexivity | right; apply IH, Hin].
Qed.

Lemma httpRequest_call_rest (headers data : value) (opt : props) (k : string) :
  NoDup (map fst opt) ->
  k <> "headers" -> k <> "data" ->
  obj_get k (cfg (httpRequest_call headers data
                    (obj_remove "data" (obj_remove "headers" opt))))
  = match obj_get k opt with
    | Some v => Some (Data v)
    | None =>
        obj_get k
          (cfg (httpRequest_call headers data []))
    end.
Proof.
  intros Hnd Hh Hd. unfold httpRequest_call, literal. cbn [cfg].
  rewrite !obj_assign_app, obj_get_assign, obj_get_rev_spread.
  rewrite obj_get_rev_NoDup by (apply NoDup_keys_remove, NoDup_keys_remove, Hnd).
  rewrite !obj_get_remove_ne by congruence.
  destruct (obj_get k opt); reflexivity.
Qed.

(** [httpRequest] forwards the rest of its argument, [url] and [method]
    and any other field, unchanged.  The rest is spread after the
    callbacks: a field of the argument named [fail] (or [success])
    takes the callback's place, so the host finds no function there,
    invoking it throws and the promise is never settled by it. *)
Theorem httpRequest_forwards_the_rest :
  forall (opt : props) (h : heap) (rq : request) (h1 : heap),
    NoDup (map fst opt) ->
    httpRequest opt h = Ok rq h1 ->
    (forall k v, k <> "headers" -> k <> "data" ->
                 obj_get k opt = Some v -> forwards rq k v)
    /\ (forall k, k <> "headers" -> k <> "data" -> k <> "success" -> k <> "fail" ->
                  obj_get k opt = None -> obj_get k (cfg rq) = None)
    /\ (forall (name : string) (v R : value) (p : promise) (h2 : heap),
          name = "success" \/ name = "fail" ->
          obj_get name opt = Some v ->
          host_invokes rq name R p h2 = Throw TypeError h2).
Proof.
  intros opt h rq h1 Hnd Hrun.
  destruct (httpRequest_inv _ _ _ _ Hrun) as (headers & data & ->).
  assert (forall k v, k <> "headers" -> k <> "data" ->
                      obj_get k opt = Some v ->
                      forwards (httpRequest_call headers data
                                  (obj_remove "data" (obj_remove "headers" opt))) k v)
    as Hfw.
  { intros k v Hh Hd Hk. unfold forwards.
    rewrite (httpRequest_call_rest headers data opt k Hnd Hh Hd), Hk. reflexivity. }
  split; [exact Hfw|]. split.
  - intros k Hh Hd Hs Hf Hk.
    rewrite (httpRequest_call_rest headers data opt k Hnd Hh Hd), Hk.
    apply String.eqb_neq in Hh, Hd, Hs, Hf.
    change (cfg (httpRequest_call headers data []))
      with [("headers", Data headers); ("data", Data data);
            ("success", Fn (fun res =>
                              raw <- get_prop res "headers" ;;
                              normalized <- getHeaders raw ;;
                              set_prop res "headers" normalized ;;
                              resolve res));
            ("fail", Fn reject)].
    simpl. rewrite Hh, Hd, Hs, Hf. reflexivity.
  - intros name v R p h2 Hname Hk.
    assert (name <> "headers" /\ name <> "data") as [Hh Hd]
      by (destruct Hname as [-> | ->]; split; discriminate).
    unfold host_invokes. rewrite (Hfw name v Hh Hd Hk). reflexivity.
Qed.

Lemma httpRequest_forwards_the_rest_witness :
  forwards
    (httpRequest_call (VRef 0) VUndefined
       [("url", VStr "/api"); ("method", VStr "GET"); ("fail", VNum 7)])
    "method" (VStr "GET")
  /\ host_invokes
       (httpRequest_call (VRef 0) VUndefined
          [("url", VStr "/api"); ("method", VStr "GET"); ("fail", VNum 7)])
       "fail" (VStr "offline") Pending []
     = Throw TypeError [].
Proof.
  destruct (httpRequest_forwards_the_rest
              [("url", VStr "/api"); ("method", VStr "GET"); ("fail", VNum 7)] []
              (httpRequest_call (VRef 0) VUndefined
                 [("url", VStr "/api"); ("method", VStr "GET"); ("fail", VNum 7)])
              [Obj [("Content-Type", VStr "application/json")]])
    as (Hfw & _ & Hshadow).
  - repeat constructor; rewrite ?elem_of_cons, ?elem_of_nil; intros H;
      repeat destruct H as [H|H]; discriminate || contradiction.
  - reflexivity.
  - split.
    + apply Hfw; [discriminate | discriminate | reflexivity].
    + apply (Hshadow "fail" (VNum 7)); [right; reflexivity | reflexivity].
Defined.

(** When the caller passes no headers, [httpRequest] works on an object
    of its own: the heap the caller knew is a prefix of the heap after
    the call, the one new object is the headers handed to the host, and
    it holds ["Content-Type": "application/json"] and nothing else. *)
Theorem httpRequest_without_headers_touches_nothing :
  forall (opt : props) (h : heap),
    get "headers" opt = VUndefined ->
    heap_after (httpRequest opt h)
    = h ++ [Obj [("Content-Type", VStr "application/json")]]
    /\ (forall rq h1, httpRequest opt h = Ok rq h1 ->
                      forwards rq "headers" (VRef (length h)))
    /\ (forall i, i < length h -> heap_after (httpRequest opt h) !! i = h !! i).
Proof.
  intros opt h Hhd.
  assert (headers_at opt h (length h) (h ++ [Obj []])) as Hat
    by (right; repeat split; assumption).
  assert ((h ++ [Obj []]) !! length h = Some (Obj [])) as Hl.
  { rewrite lookup_app_r by reflexivity. rewrite Nat.sub_diag. reflexivity. }
  pose proof (httpRequest_falsy opt h (length h) (Obj []) (h ++ [Obj []]) Hat Hl eq_refl)
    as Hrun.
  assert (with_json_content_type (length h) (Obj []) (h ++ [Obj []])
          = h ++ [Obj [("Content-Type", VStr "application/json")]]) as Hheap.
  { unfold with_json_content_type. rewrite insert_app_r_alt by reflexivity.
    rewrite Nat.sub_diag. reflexivity. }
  rewrite Hheap in Hrun.
  assert (heap_after (httpRequest opt h)
          = h ++ [Obj [("Content-Type", VStr "application/json")]]) as Hafter.
  { rewrite Hrun.
    pose proof (JSON_stringify_heap_after (get "data" opt)
                  (h ++ [Obj [("Content-Type", VStr "application/json")]])).
    destruct (JSON_stringify _ _); assumption. }
  split; [exact Hafter|]. split.
  - intros rq h1 Hok. rewrite Hrun in Hok.
    destruct (JSON_stringify _ _) as [d h2|]; [|discriminate].
    assert (rq = httpRequest_call (VRef (length h)) d
                   (obj_remove "data" (obj_remove "headers" opt))) as ->
      by congruence.
    apply httpRequest_call_headers.
  - intros i Hi. rewrite Hafter. apply lookup_app_l, Hi.
Qed.

Lemma httpRequest_without_headers_touches_nothing_witness :
  heap_after (httpRequest [("url", VStr "/api"); ("method", VStr "GET")]
                [Obj [("Accept", VStr "text/html")]])
  = [Obj [("Accept", VStr "text/html")];
     Obj [("Content-Type", VStr "application/json")]].
Proof.
  apply (httpRequest_without_headers_touches_nothing
           [("url", VStr "/api"); ("method", VStr "GET")]
           [Obj [("Accept", VStr "text/html")]]).
  reflexivity.
Defined.

(** Headers that are not an object make [httpRequest] throw a
    [TypeError] before it calls the host: [null] when its
    ["Content-Type"] is read, a boolean, number or string when
    ["Content-Type"] is written (the module is strict code).  No promise
    is returned and the heap is untouched. *)
Theorem httpRequest_rejects_headers_that_are_no_object :
  forall (opt : props) (h : heap),
    get "headers" opt = VNull
    \/ (exists b, get "headers" opt = VBool b)
    \/ (exists n, get "headers" opt = VNum n)
    \/ (exists s, get "headers" opt = VStr s) ->
    httpRequest opt h = Throw TypeError h.
Proof.
  intros opt h Hhd. unfold httpRequest, bind.
  destruct Hhd as [-> | [[b ->] | [[n ->] | [s ->]]]]; reflexivity.
Qed.

Lemma httpRequest_rejects_headers_that_are_no_object_witness :
  httpRequest [("url", VStr "/api"); ("method", VStr "GET"); ("headers", VNull)] []
  = Throw TypeError [].
Proof.
  apply httpRequest_rejects_headers_that_are_no_object. left. reflexivity.
Defined.



(** ** [httpRequest]: responses that need no normalizing *)

Lemma obj_set_same {A} (k : string) (x : A) (o : list (string * A)) :
  obj_get k o = Some x -> obj_set k x o = o.
Proof.
  intros Hget. unfold obj_set, has_key. rewrite Hget.
  induction o as [|[k' x'] o IH]; simpl in *; [discriminate|].
  destruct (k =? k') eqn:E.
  - apply String.eqb_eq in E. congruence.
  - f_equal. apply IH, Hget.
Qed.

Lemma with_named_props_same (c : cell) : with_named_props c (named_props c) = c.
Proof. destruct c; reflexivity. Qed.

Lemma is_array_insert (h : heap) (r : loc) (c : cell) (ps : props) (v : value) :
  h !! r = Some c ->
  is_array (<[r := with_named_props c ps]> h) v = is_array h v.
Proof.
  intros Hr. destruct v as [| | | | |l]; try reflexivity. unfold is_array.
  destruct (decide (l = r)) as [->|Hne].
  - rewrite list_lookup_insert_eq by (eapply lookup_lt_Some, Hr).
    rewrite Hr. destruct c; reflexivity.
  - rewrite list_lookup_insert_ne by congruence. reflexivity.
Qed.

Lemma httpRequest_success_mapping (headers data : value) (opt : props)
    (h : heap) (r : loc) (c : cell) (hv : value) (p : promise) :
  obj_get "success" opt = None ->
  h !! r = Some c ->
  obj_get "headers" (named_props c) = Some hv ->
  is_array h hv = false ->
  host_invokes
    (httpRequest_call headers data (obj_remove "data" (obj_remove "headers" opt)))
    "success" (VRef r) p h
  = Ok (settle (Resolve (VRef r)) p) h.
Proof.
  intros Hopt Hr Hhv Hna. unfold host_invokes.
  rewrite (httpRequest_call_success headers data opt Hopt).
  unfold bind at 1 2. unfold get_prop at 1. rewrite Hr.
  unfold get. rewrite Hhv. cbn [default from_option id].
  unfold bind at 1. rewrite (getHeaders_not_array h hv Hna).
  unfold bind at 1. rewrite (set_prop_ref r c _ _ _ Hr) by discriminate.
  rewrite (obj_set_same _ _ _ Hhv), with_named_props_same.
  rewrite (list_insert_id h r c Hr). reflexivity.
Qed.

(** A response whose [headers] field is already a mapping, or any
    value that is not a sequence, goes to the caller untouched: the
    promise is fulfilled with the response and the whole heap is as the
    host left it.  A response with no [headers] field at all comes back
    with one, holding [undefined]. *)
Theorem httpRequest_leaves_normal_responses_untouched :
  forall (opt : props) (h : heap) (rq : request) (h1 : heap),
    obj_get "success" opt = None ->
    httpRequest opt h = Ok rq h1 ->
    (forall (h2 : heap) (r : loc) (c : cell) (hv : value),
        h2 !! r = Some c ->
        obj_get "headers" (named_props c) = Some hv ->
        is_array h2 hv = false ->
        host_invokes rq "success" (VRef r) Pending h2 = Ok (Fulfilled (VRef r)) h2)
    /\ (forall (h2 : heap) (r : loc) (ps : props),
          h2 !! r = Some (Obj ps) ->
          obj_get "headers" ps = None ->
          host_invokes rq "success" (VRef r) Pending h2
          = Ok (Fulfilled (VRef r)) (<[r := Obj (ps ++ [("headers", VUndefined)])]> h2)).
Proof.
  intros opt h rq h1 Hopt Hrun.
  destruct (httpRequest_inv _ _ _ _ Hrun) as (headers & data & ->). split.
  - intros h2 r c hv Hr Hhv Hna.
    apply (httpRequest_success_mapping headers data opt h2 r c hv Pending Hopt Hr Hhv Hna).
  - intros h2 r ps Hr Habs. unfold host_invokes.
    rewrite (httpRequest_call_success headers data opt Hopt).
    unfold bind at 1 2. unfold get_prop at 1. rewrite Hr.
    unfold get. cbn [named_props]. rewrite Habs. cbn [default from_option id].
    unfold bind at 1. rewrite (getHeaders_not_array h2 VUndefined eq_refl).
    unfold bind at 1. rewrite (set_prop_ref r _ _ _ _ Hr) by discriminate.
    cbn [named_props with_named_props].
    unfold obj_set, has_key. rewrite Habs. reflexivity.
Qed.

Lemma httpRequest_leaves_normal_responses_untouched_witness :
  host_invokes
    (httpRequest_call (VRef 0) VUndefined [("url", VStr "/api"); ("method", VStr "GET")])
    "success" (VRef 2) Pending
    [Obj [("Content-Type", VStr "application/json")];
     Obj [("Server", VStr "nginx")];
     Obj [("status", VNum 200); ("headers", VRef 1)]]
  = Ok (Fulfilled (VRef 2))
       [Obj [("Content-Type", VStr "application/json")];
        Obj [("Server", VStr "nginx")];
        Obj [("status", VNum 200); ("headers", VRef 1)]].
Proof.
  destruct (httpRequest_leaves_normal_responses_untouched
              [("url", VStr "/api"); ("method", VStr "GET")] []
              (httpRequest_call (VRef 0) VUndefined
                 [("url", VStr "/api"); ("method", VStr "GET")])
              [Obj [("Content-Type", VStr "application/json")]] eq_refl eq_refl)
    as (Hkeep & _).
  apply (Hkeep _ 2 (Obj [("status", VNum 200); ("headers", VRef 1)]) (VRef 1));
    reflexivity.
Defined.

Lemma httpRequest_success_run_mapping (headers data : value) (opt : props)
    (h : heap) (r : loc) (c : cell) (p : promise) :
  obj_get "success" opt = None ->
  h !! r = Some c ->
  exists normalized extra,
    is_array (h ++ extra) normalized = false
    /\ host_invokes
         (httpRequest_call headers data (obj_remove "data" (obj_remove "headers" opt)))
         "success" (VRef r) p h
       = Ok (settle (Resolve (VRef r)) p)
            (<[r := with_named_props c (obj_set "headers" normalized (named_props c))]>
               (h ++ extra)).
Proof.
  intros Hopt Hr.
  destruct (getHeaders_total h (get "headers" (named_props c)))
    as (normalized & h' & Hrun & Hna & extra & ->).
  exists normalized, extra. split; [exact Hna|].
  unfold host_invokes. rewrite (httpRequest_call_success headers data opt Hopt).
  unfold bind at 1 2. unfold get_prop at 1. rewrite Hr.
  unfold bind at 1. rewrite Hrun.
  unfold bind at 1.
  rewrite (set_prop_ref r c _ _ _ (lookup_app_l_Some _ _ _ _ Hr)) by discriminate.
  reflexivity.
Qed.

(** Normalizing a response is done once and for all: if the host
    invokes the success callback a second time with the same response,
    nothing happens, neither to the promise nor to the heap.  (The
    first invocation may allocate the merged headers; the second finds
    them in place.) *)
Theorem httpRequest_second_success_changes_nothing :
  forall (opt : props) (h : heap) (rq : request) (h1 : heap),
    obj_get "success" opt = None ->
    httpRequest opt h = Ok rq h1 ->
    forall (h2 : heap) (r : loc) (c : cell),
      h2 !! r = Some c ->
      exists h3,
        host_invokes rq "success" (VRef r) Pending h2 = Ok (Fulfilled (VRef r)) h3
        /\ host_invokes rq "success" (VRef r) (Fulfilled (VRef r)) h3
           = Ok (Fulfilled (VRef r)) h3.
Proof.
  intros opt h rq h1 Hopt Hrun h2 r c Hr.
  destruct (httpRequest_inv _ _ _ _ Hrun) as (headers & data & ->).
  destruct (httpRequest_success_run_mapping headers data opt h2 r c Pending Hopt Hr)
    as (normalized & extra & Hna & Hfirst).
  eexists. split; [exact Hfirst|].
  assert ((h2 ++ extra) !! r = Some c) as Hr' by (apply lookup_app_l_Some, Hr).
  eapply (httpRequest_success_mapping headers data opt _ r _ normalized
            (Fulfilled (VRef r)) Hopt).
  - apply list_lookup_insert_eq. eapply lookup_lt_Some, Hr'.
  - rewrite named_props_with. apply obj_get_set_eq.
  - rewrite (is_array_insert _ _ _ _ _ Hr'). exact Hna.
Qed.

Lemma httpRequest_second_success_changes_nothing_witness :
  exists h3,
    host_invokes
      (httpRequest_call (VRef 0) VUndefined [("url", VStr "/api"); ("method", VStr "GET")])
      "success" (VRef 3) Pending
      [Obj [("Content-Type", VStr "application/json")];
       Arr [VRef 2] [];
       Obj [("Server", VStr "nginx")];
       Obj [("status", VNum 200); ("headers", VRef 1)]]
    = Ok (Fulfilled (VRef 3)) h3
    /\ host_invokes
         (httpRequest_call (VRef 0) VUndefined
            [("url", VStr "/api"); ("method", VStr "GET")])
         "success" (VRef 3) (Fulfilled (VRef 3)) h3
       = Ok (Fulfilled (VRef 3)) h3.
Proof.
  apply (httpRequest_second_success_changes_nothing
           [("url", VStr "/api"); ("method", VStr "GET")] []
           (httpRequest_call (VRef 0) VUndefined
              [("url", VStr "/api"); ("method", VStr "GET")])
           [Obj [("Content-Type", VStr "application/json")]] eq_refl eq_refl
           _ 3 (Obj [("status", VNum 200); ("headers", VRef 1)])).
  reflexivity.
Defined.

(** ** [getHeaders] on any sequence *)

Lemma entries_in_frame (h ext : heap) (o : props) (e : value) :
  (forall l, e = VRef l -> l < length h) ->
  entries_in (<[length h := Obj o]> (h ++ ext)) e = entries_in h e.
Proof.
  intros Hlive. destruct e as [| | | | |l]; try reflexivity.
  specialize (Hlive l eq_refl). unfold entries_in.
  rewrite list_lookup_insert_ne by lia.
  rewrite lookup_app_l by exact Hlive. reflexivity.
Qed.

Lemma merge_into_live (h ext : heap) (elems : list value) (o : props) :
  live_values h elems ->
  obj_get proto_key o = None ->
  merge_into (h ++ ext) (length h) elems o
  = obj_assign (settable (all_entries h elems)) o.
Proof.
  unfold live_values, merge_into, all_entries. intros Hlive. revert o.
  induction Hlive as [|e elems He _ IH]; intros o Ho; cbn [fold_left map concat];
    [reflexivity|].
  rewrite (entries_in_frame h ext o e He).
  rewrite obj_put_all_settable by exact Ho.
  rewrite IH by (apply obj_get_proto_assign_settable, Ho).
  rewrite obj_assign_assign, <- settable_app. reflexivity.
Qed.

(** [getHeaders] merges any sequence, not only single-key mappings:
    the result is one fresh object in which every key other than
    [__proto__] that occurs in some element is an own key, once and
    with the value of its last occurrence.  [__proto__] adds no key:
    when no entry replaces the prototype, the result is exactly the
    merge of the other entries.  An element that is [undefined],
    [null], a boolean or a number adds nothing. *)
Theorem getHeaders_merges_any_sequence :
  forall (h : heap) (l : loc) (elems : list value) (ps : props),
    h !! l = Some (Arr elems ps) ->
    live_values h elems ->
    exists o : props,
      getHeaders (VRef l) h = Ok (VRef (length h)) (h ++ [Obj o])
      /\ (forall k, k <> proto_key ->
                    obj_get k o = last_binding k (all_entries h elems))
      /\ NoDup (map fst o)
      /\ (prototype_kept (all_entries h elems) ->
          o = literal (settable (all_entries h elems))
          /\ obj_get proto_key o = None)
      /\ (forall e, In e elems ->
                    e = VUndefined \/ e = VNull
                    \/ (exists b, e = VBool b) \/ (exists n, e = VNum n) ->
                    entries_in h e = []).
Proof.
  intros h l elems ps Hl Hlive. exists (literal (settable (all_entries h elems))).
  split; [|split; [|split; [|split]]].
  - rewrite (getHeaders_array _ _ _ _ Hl).
    rewrite (merge_into_live _ _ _ _ Hlive) by reflexivity. reflexivity.
  - intros k Hk. unfold literal, last_binding.
    rewrite obj_get_assign, obj_get_rev_settable by exact Hk.
    destruct (obj_get k (rev (all_entries h elems))); reflexivity.
  - apply NoDup_keys_assign. constructor.
  - intros _. split; [reflexivity|].
    apply obj_get_proto_assign_settable. reflexivity.
  - intros e _ [-> | [-> | [[b ->] | [n ->]]]]; reflexivity.
Qed.

Lemma getHeaders_merges_any_sequence_witness :
  getHeaders (VRef 0)
    [Arr [VRef 1; VNull; VRef 2] [];
     Obj [("Server", VStr "nginx"); ("Vary", VStr "Accept")];
     Obj [("Vary", VStr "Origin"); ("__proto__", VStr "x"); ("Age", VStr "0")]]
  = Ok (VRef 3)
      [Arr [VRef 1; VNull; VRef 2] [];
       Obj [("Server", VStr "nginx"); ("Vary", VStr "Accept")];
       Obj [("Vary", VStr "Origin"); ("__proto__", VStr "x"); ("Age", VStr "0")];
       Obj [("Server", VStr "nginx"); ("Vary", VStr "Origin"); ("Age", VStr "0")]].
Proof.
  destruct (getHeaders_merges_any_sequence
              [Arr [VRef 1; VNull; VRef 2] [];
               Obj [("Server", VStr "nginx"); ("Vary", VStr "Accept")];
               Obj [("Vary", VStr "Origin"); ("__proto__", VStr "x"); ("Age", VStr "0")]]
              0 [VRef 1; VNull; VRef 2] [])
    as (o & Hrun & _ & _ & Hexact & _).
  - reflexivity.
  - unfold live_values.
    repeat (constructor; [intros l Heq; inversion Heq; subst; simpl; lia|]).
    constructor.
  - destruct Hexact as [-> _]; [repeat constructor|]. exact Hrun.
Defined.

(** [getHeaders] never writes to what it is given.  Whatever the
    input, every object of the heap is afterwards as it was; for a
    sequence the result is one new object at the end of the heap, never
    the sequence itself and never a sequence; for an empty sequence it
    is the empty object. *)
Theorem getHeaders_never_mutates_its_input :
  forall (h : heap) (origin v : value) (h' : heap),
    getHeaders origin h = Ok v h' ->
    (forall i, i < length h -> h' !! i = h !! i)
    /\ (is_array h origin = false -> v = origin /\ h' = h)
    /\ (is_array h origin = true ->
        v = VRef (length h) /\ length h' = S (length h)
        /\ v <> origin /\ is_array h' v = false)
    /\ (forall l ps, origin = VRef l -> h !! l = Some (Arr [] ps) ->
                     h' = h ++ [Obj []]).
Proof.
  intros h origin v h' Hrun.
  destruct (is_array h origin) eqn:E.
  - unfold is_array in E. destruct origin as [| | | | |l]; try discriminate.
    destruct (h !! l) as [[|elems ps]|] eqn:Hl; try discriminate.
    rewrite (getHeaders_array _ _ _ _ Hl) in Hrun. injection Hrun as <- <-.
    split; [intros i Hi; apply lookup_app_l, Hi|].
    split; [discriminate|]. split.
    + intros _. split; [reflexivity|]. split; [rewrite length_app; simpl; lia|].
      split.
      * intros [= Heq]. apply lookup_lt_Some in Hl. lia.
      * unfold is_array. rewrite lookup_app_r by reflexivity.
        rewrite Nat.sub_diag. reflexivity.
    + intros l0 ps0 [= <-] Hl0. rewrite Hl in Hl0. injection Hl0 as -> _.
      reflexivity.
  - rewrite (getHeaders_not_array _ _ E) in Hrun. injection Hrun as <- <-.
    split; [reflexivity|]. split; [intros _; split; reflexivity|].
    split; [discriminate|].
    intros l ps -> Hl. unfold is_array in E. rewrite Hl in E. discriminate.
Qed.

Lemma getHeaders_never_mutates_its_input_witness :
  [Arr [VRef 1] []; Obj [("Server", VStr "nginx")]; Obj [("Server", VStr "nginx")]] !! 1
  = [Arr [VRef 1] []; Obj [("Server", VStr "nginx")]] !! 1.
Proof.
  destruct (getHeaders_never_mutates_its_input
              [Arr [VRef 1] []; Obj [("Server", VStr "nginx")]] (VRef 0) (VRef 2)
              [Arr [VRef 1] []; Obj [("Server", VStr "nginx")];
               Obj [("Server", VStr "nginx")]] eq_refl)
    as (Hframe & _).
  apply Hframe. simpl. lia.
Defined.

(** ** [onKeyboardShow] *)

(** [onKeyboardShow] returns the [height] found in the [data] of the
    event and changes nothing.  It has no fallback: an event that is
    [undefined] or [null], or whose [data] is, makes it throw a
    [TypeError]. *)
Theorem onKeyboardShow_returns_data_height :
  (forall (h : heap) (r d : loc) (c cd : cell),
      h !! r = Some c ->
      get "data" (named_props c) = VRef d ->
      h !! d = Some cd ->
      onKeyboardShow (VRef r) h = Ok (get "height" (named_props cd)) h)
  /\ (forall (h : heap) (res : value),
        res = VUndefined \/ res = VNull ->
        onKeyboardShow res h = Throw TypeError h)
  /\ (forall (h : heap) (r : loc) (c : cell),
        h !! r = Some c ->
        get "data" (named_props c) = VUndefined \/ get "data" (named_props c) = VNull ->
        onKeyboardShow (VRef r) h = Throw TypeError h).
Proof.
  split; [|split].
  - intros h r d c cd Hr Hd Hcd. unfold onKeyboardShow, bind, get_prop.
    rewrite Hr, Hd, Hcd. reflexivity.
  - intros h res [-> | ->]; reflexivity.
  - intros h r c Hr Hd. unfold onKeyboardShow, bind, get_prop. rewrite Hr.
    destruct Hd as [-> | ->]; reflexivity.
Qed.

Lemma onKeyboardShow_returns_data_height_witness :
  onKeyboardShow (VRef 0) [Obj [("data", VRef 1)]; Obj [("height", VNum 291)]]
  = Ok (VNum 291) [Obj [("data", VRef 1)]; Obj [("height", VNum 291)]]
  /\ onKeyboardShow (VRef 0) [Obj [("type", VStr "show")]]
     = Throw TypeError [Obj [("type", VStr "show")]].
Proof.
  destruct onKeyboardShow_returns_data_height as (Hok & _ & Hmissing).
  split.
  - apply (Hok _ 0 1 (Obj [("data", VRef 1)]) (Obj [("height", VNum 291)]));
      reflexivity.
  - apply (Hmissing _ 0 (Obj [("type", VStr "show")])); [reflexivity|].
    left. reflexivity.
Defined.
